(** * The L1 transaction model of the sequencer (package [common])

    A shallow embedding of [common/l1tx.go] and of the account index codec
    ([Idx.Bytes], [IdxFromBytes]), with the properties the specification
    states about type inference, identifier derivation, byte decoding and
    the account store. *)

From Stdlib Require Import ZArith List Bool Lia String.
From Stdlib.Strings Require Import Byte.
From stdpp Require Import base option gmap.
Import ListNotations.

Local Open Scope Z_scope.

(** ** Bytes

    Go's [byte] is [Byte.byte]; integer conversions go through [Z]. *)

Definition Z_of_byte (b : byte) : Z := Z.of_N (Byte.to_N b).

(** [byte(v)]: the conversion of an unsigned integer to [byte] keeps the low
    eight bits. *)
Definition byte_of_Z (z : Z) : byte :=
  match Byte.of_N (Z.to_N (z mod 256)) with
  | Some b => b
  | None => x00
  end.

(** [uint64(x)] and [uint16(x)] of a signed integer: wrap-around. *)
Definition to_uint64 (z : Z) : Z := z mod 2 ^ 64.
Definition to_uint16 (z : Z) : Z := z mod 2 ^ 16.

(** [int64(x)] of an unsigned 64-bit integer: two's complement. *)
Definition to_int64 (z : Z) : Z :=
  let u := z mod 2 ^ 64 in
  if u <? 2 ^ 63 then u else u - 2 ^ 64.

(** The value of a byte string read as a big-endian natural number. *)
Definition be_value (b : list byte) : Z :=
  fold_left (fun acc x => acc * 256 + Z_of_byte x) b 0.

(** The big-endian encoding of [v] on [n] bytes: its [n] low-order bytes,
    most significant first. *)
Fixpoint be_bytes (n : nat) (v : Z) : list byte :=
  match n with
  | O => []
  | S n' => be_bytes n' (v / 256) ++ [byte_of_Z v]
  end.

(** ** Errors, panics and results *)

Inductive error : Type :=
| ErrIdxOverflow
| ErrIdxBytesLen (current expected : nat)
| ErrInvalidToIdx (toIdx : Z)
| ErrInvalidFromIdx (fromIdx : Z)
| ErrToForgeL1TxsNumNil
| ErrBatchNumNil
| ErrL1TxBytesLen (expected current : nat)
| ErrL1CoordinatorTxBytesLen (expected current : nat)
| ErrFloat40
| ErrHashToSign
| ErrEcrecover
| ErrUnmarshalPubkey.

(** What a Go call does: return a value, return an error, or panic at run
    time (index out of range, nil dereference). *)
Inductive outcome (A : Type) : Type :=
| Ok (a : A)
| Err (e : error)
| Panic.

Arguments Ok {A} a.
Arguments Err {A} e.
Arguments Panic {A}.

Definition obind {A B} (m : outcome A) (k : A -> outcome B) : outcome B :=
  match m with
  | Ok a => k a
  | Err e => Err e
  | Panic => Panic
  end.

Notation "x <-- m ; k" := (obind m (fun x => k))
  (at level 20, m at level 100, k at level 200, only parsing).
Notation "' p <-- m ; k" := (obind m (fun p => k))
  (at level 20, p pattern, m at level 100, k at level 200, only parsing).

(** [Wrap(err)] only attaches a stack trace to the error. *)
Definition Wrap (e : error) : error := e.

(** ** Slices

    A slice is the list of its elements.  The slice expression [b[lo:hi]]
    panics unless [lo <= hi <= cap(b)]; the model takes [cap(b) = len(b)],
    the least capacity a slice of that length can have, so that whatever is
    in range here is in range for every capacity. *)
Definition sub (b : list byte) (lo hi : nat) : list byte :=
  firstn (hi - lo) (skipn lo b).

Definition slice (b : list byte) (lo hi : nat) : outcome (list byte) :=
  if (lo <=? hi)%nat && (hi <=? length b)%nat
  then Ok (sub b lo hi)
  else Panic.

(** [copy(dst, src)] copies [min(len(dst), len(src))] elements and leaves the
    rest of [dst]. *)
Definition copy (dst src : list byte) : list byte :=
  firstn (length dst) src ++ skipn (length src) dst.

Definition zeros (n : nat) : list byte := repeat x00 n.

(** ** [encoding/binary], big endian *)

(** [binary.BigEndian.PutUint64(b[:], v)] on an [[8]byte]. *)
Definition PutUint64 (v : Z) : list byte :=
  [ byte_of_Z (Z.shiftr v 56); byte_of_Z (Z.shiftr v 48);
    byte_of_Z (Z.shiftr v 40); byte_of_Z (Z.shiftr v 32);
    byte_of_Z (Z.shiftr v 24); byte_of_Z (Z.shiftr v 16);
    byte_of_Z (Z.shiftr v 8); byte_of_Z v ].

(** [binary.BigEndian.PutUint16(b[:], v)] on a [[2]byte]. *)
Definition PutUint16 (v : Z) : list byte :=
  [ byte_of_Z (Z.shiftr v 8); byte_of_Z v ].

(** [binary.BigEndian.Uint64(b)]; the bounds check [_ = b[7]] panics on a
    slice shorter than eight bytes. *)
Definition Uint64 (b : list byte) : outcome Z :=
  match b with
  | b0 :: b1 :: b2 :: b3 :: b4 :: b5 :: b6 :: b7 :: _ =>
      Ok (Z.lor (Z_of_byte b7)
         (Z.lor (Z.shiftl (Z_of_byte b6) 8)
         (Z.lor (Z.shiftl (Z_of_byte b5) 16)
         (Z.lor (Z.shiftl (Z_of_byte b4) 24)
         (Z.lor (Z.shiftl (Z_of_byte b3) 32)
         (Z.lor (Z.shiftl (Z_of_byte b2) 40)
         (Z.lor (Z.shiftl (Z_of_byte b1) 48)
                (Z.shiftl (Z_of_byte b0) 56))))))))
  | _ => Panic
  end.

(** ** Account index ([Idx], a [uint64]) *)

Definition IdxBytesLen : nat := 6.
Definition maxIdxValue : Z := 0xffffffffffff.
Definition UserThreshold : Z := 256.
Definition IdxUserThreshold : Z := UserThreshold.

(** [func (idx Idx) Bytes() ([6]byte, error)] *)
Definition Idx_Bytes (idx : Z) : outcome (list byte) :=
  if idx >? maxIdxValue then Err (Wrap ErrIdxOverflow)
  else
    let idxBytes := PutUint64 (to_uint64 idx) in
    let b := copy (zeros 6) (skipn 2 idxBytes) in
    Ok b.

(** [func IdxFromBytes(b []byte) (Idx, error)] *)
Definition IdxFromBytes (b : list byte) : outcome Z :=
  if negb (length b =? IdxBytesLen)%nat
  then Err (Wrap (ErrIdxBytesLen (length b) IdxBytesLen))
  else
    let idxBytes := firstn 2 (zeros 8) ++ copy (skipn 2 (zeros 8)) b in
    idx <-- Uint64 idxBytes;
    Ok idx.

(** ** [math/big]

    A [*big.Int] is [option Z], [None] being the nil pointer. *)

(** [func (x *Int) Int64() int64]: the low 64 bits of the magnitude, negated
    for a negative [x]; no check that [x] fits. *)
Definition Int64 (x : Z) : Z :=
  let v := to_int64 (Z.abs x) in
  if x <? 0 then to_int64 (- v) else v.

(** [func (x *Int) Uint64() uint64]: the low 64 bits of the magnitude. *)
Definition BigInt_Uint64 (x : Z) : Z := to_uint64 (Z.abs x).

(** ** Transaction types ([TxType], a Go string) *)

Definition TxType : Type := string.

(** Modelled from the spec: the [TxType] constants, whose declarations are
    not among the sources; the specification (section 4.B) names the L1
    family [CreateAccountDeposit], [Deposit], [CreateAccountDepositTransfer],
    [DepositTransfer], [ForceTransfer] and [ForceExit]. *)
Definition TxTypeDeposit : TxType := "Deposit"%string.
Definition TxTypeCreateAccountDeposit : TxType := "CreateAccountDeposit"%string.
Definition TxTypeCreateAccountDepositTransfer : TxType :=
  "CreateAccountDepositTransfer"%string.
Definition TxTypeDepositTransfer : TxType := "DepositTransfer"%string.
Definition TxTypeForceTransfer : TxType := "ForceTransfer"%string.
Definition TxTypeForceExit : TxType := "ForceExit"%string.

(** ** Transaction identifiers ([TxID]) *)

(** Modelled from the spec: the length of a [TxID] and its domain prefixes,
    whose declarations are not among the sources; the specification fixes a
    [TxID] at 33 bytes (section 3.1) and the prefixes at [0x00] for an L1
    user tx and [0x01] for an L1 coordinator tx (section 4.B), as does the
    comment on the [TxID] field of [L1Tx]. *)
Definition TxIDLen : nat := 33.
Definition TxIDPrefixL1UserTx : byte := x00.
Definition TxIDPrefixL1CoordTx : byte := x01.

(** ** [L1Tx] *)

Record L1Tx : Type := mkL1Tx {
  TxID : list byte;
  ToForgeL1TxsNum : option Z;
  Position : Z;
  UserOrigin : bool;
  FromIdx : Z;
  EffectiveFromIdx : Z;
  FromEthAddr : list byte;
  FromBJJ : list byte;
  ToIdx : Z;
  Amount : option Z;
  EffectiveAmount : option Z;
  DepositAmount : option Z;
  EffectiveDepositAmount : option Z;
  EthBlockNum : Z;
  EthTxHash : list byte;
  L1Fee : option Z;
  Type_ : TxType;
  BatchNum : option Z
}.

(** The zero value [L1Tx{}]. *)
Definition zeroL1Tx : L1Tx :=
  mkL1Tx (zeros TxIDLen) None 0 false 0 0 (zeros 20) (zeros 32) 0
         None None None None 0 (zeros 32) None EmptyString None.

(** Assignments to the fields the code writes. *)
Definition set_TxID (v : list byte) (t : L1Tx) : L1Tx :=
  mkL1Tx v (ToForgeL1TxsNum t) (Position t) (UserOrigin t) (FromIdx t)
         (EffectiveFromIdx t) (FromEthAddr t) (FromBJJ t) (ToIdx t)
         (Amount t) (EffectiveAmount t) (DepositAmount t)
         (EffectiveDepositAmount t) (EthBlockNum t) (EthTxHash t) (L1Fee t)
         (Type_ t) (BatchNum t).

Definition set_UserOrigin (v : bool) (t : L1Tx) : L1Tx :=
  mkL1Tx (TxID t) (ToForgeL1TxsNum t) (Position t) v (FromIdx t)
         (EffectiveFromIdx t) (FromEthAddr t) (FromBJJ t) (ToIdx t)
         (Amount t) (EffectiveAmount t) (DepositAmount t)
         (EffectiveDepositAmount t) (EthBlockNum t) (EthTxHash t) (L1Fee t)
         (Type_ t) (BatchNum t).

Definition set_FromIdx (v : Z) (t : L1Tx) : L1Tx :=
  mkL1Tx (TxID t) (ToForgeL1TxsNum t) (Position t) (UserOrigin t) v
         (EffectiveFromIdx t) (FromEthAddr t) (FromBJJ t) (ToIdx t)
         (Amount t) (EffectiveAmount t) (DepositAmount t)
         (EffectiveDepositAmount t) (EthBlockNum t) (EthTxHash t) (L1Fee t)
         (Type_ t) (BatchNum t).

Definition set_FromEthAddr (v : list byte) (t : L1Tx) : L1Tx :=
  mkL1Tx (TxID t) (ToForgeL1TxsNum t) (Position t) (UserOrigin t) (FromIdx t)
         (EffectiveFromIdx t) v (FromBJJ t) (ToIdx t)
         (Amount t) (EffectiveAmount t) (DepositAmount t)
         (EffectiveDepositAmount t) (EthBlockNum t) (EthTxHash t) (L1Fee t)
         (Type_ t) (BatchNum t).

Definition set_FromBJJ (v : list byte) (t : L1Tx) : L1Tx :=
  mkL1Tx (TxID t) (ToForgeL1TxsNum t) (Position t) (UserOrigin t) (FromIdx t)
         (EffectiveFromIdx t) (FromEthAddr t) v (ToIdx t)
         (Amount t) (EffectiveAmount t) (DepositAmount t)
         (EffectiveDepositAmount t) (EthBlockNum t) (EthTxHash t) (L1Fee t)
         (Type_ t) (BatchNum t).

Definition set_ToIdx (v : Z) (t : L1Tx) : L1Tx :=
  mkL1Tx (TxID t) (ToForgeL1TxsNum t) (Position t) (UserOrigin t) (FromIdx t)
         (EffectiveFromIdx t) (FromEthAddr t) (FromBJJ t) v
         (Amount t) (EffectiveAmount t) (DepositAmount t)
         (EffectiveDepositAmount t) (EthBlockNum t) (EthTxHash t) (L1Fee t)
         (Type_ t) (BatchNum t).

Definition set_Amount (v : option Z) (t : L1Tx) : L1Tx :=
  mkL1Tx (TxID t) (ToForgeL1TxsNum t) (Position t) (UserOrigin t) (FromIdx t)
         (EffectiveFromIdx t) (FromEthAddr t) (FromBJJ t) (ToIdx t)
         v (EffectiveAmount t) (DepositAmount t)
         (EffectiveDepositAmount t) (EthBlockNum t) (EthTxHash t) (L1Fee t)
         (Type_ t) (BatchNum t).

Definition set_DepositAmount (v : option Z) (t : L1Tx) : L1Tx :=
  mkL1Tx (TxID t) (ToForgeL1TxsNum t) (Position t) (UserOrigin t) (FromIdx t)
         (EffectiveFromIdx t) (FromEthAddr t) (FromBJJ t) (ToIdx t)
         (Amount t) (EffectiveAmount t) v
         (EffectiveDepositAmount t) (EthBlockNum t) (EthTxHash t) (L1Fee t)
         (Type_ t) (BatchNum t).

Definition set_Type (v : TxType) (t : L1Tx) : L1Tx :=
  mkL1Tx (TxID t) (ToForgeL1TxsNum t) (Position t) (UserOrigin t) (FromIdx t)
         (EffectiveFromIdx t) (FromEthAddr t) (FromBJJ t) (ToIdx t)
         (Amount t) (EffectiveAmount t) (DepositAmount t)
         (EffectiveDepositAmount t) (EthBlockNum t) (EthTxHash t) (L1Fee t)
         v (BatchNum t).

(** [func (tx *L1Tx) SetType() error].  The method writes [tx.Type] and
    returns nil, or returns an error before any write: [Ok tx'] is the tx
    after a nil return, [Err e] leaves the tx as it was.  The call
    [tx.DepositAmount.Int64()] dereferences the pointer. *)
Definition SetType (tx : L1Tx) : outcome L1Tx :=
  if FromIdx tx =? 0 then
    if ToIdx tx =? 0 then
      Ok (set_Type TxTypeCreateAccountDeposit tx)
    else if ToIdx tx >=? IdxUserThreshold then
      Ok (set_Type TxTypeCreateAccountDepositTransfer tx)
    else
      Err (Wrap (ErrInvalidToIdx (ToIdx tx)))
  else if FromIdx tx >=? IdxUserThreshold then
    if ToIdx tx =? 0 then
      Ok (set_Type TxTypeDeposit tx)
    else if ToIdx tx =? 1 then
      Ok (set_Type TxTypeForceExit tx)
    else if ToIdx tx >=? IdxUserThreshold then
      match DepositAmount tx with
      | None => Panic
      | Some d =>
          if Int64 d =? 0 then
            Ok (set_Type TxTypeForceTransfer tx)
          else
            Ok (set_Type TxTypeDepositTransfer tx)
      end
    else
      Err (Wrap (ErrInvalidToIdx (ToIdx tx)))
  else
    Err (Wrap (ErrInvalidFromIdx (FromIdx tx))).

(** ** Keccak-256

    [ethCrypto.Keccak256Hash] is the Keccak sponge over Keccak-f[1600] with a
    rate of 136 bytes, the padding byte [0x01] of the original submission and
    32 bytes of output.  The state is the list of its 25 lanes, the lane
    [(x, y)] at position [x + 5 y]. *)
Module ethCrypto.

Definition lane : Type := Z.
Definition mask64 : Z := 2 ^ 64 - 1.

Definition rotl (x : lane) (n : Z) : lane :=
  Z.land (Z.lor (Z.shiftl x n) (Z.shiftr x (64 - n))) mask64.

Definition get (st : list lane) (x y : nat) : lane :=
  nth ((x mod 5) + 5 * (y mod 5))%nat st 0.

Definition roundConstants : list lane :=
  [ 0x0000000000000001; 0x0000000000008082; 0x800000000000808A;
    0x8000000080008000; 0x000000000000808B; 0x0000000080000001;
    0x8000000080008081; 0x8000000000008009; 0x000000000000008A;
    0x0000000000000088; 0x0000000080008009; 0x000000008000000A;
    0x000000008000808B; 0x800000000000008B; 0x8000000000008089;
    0x8000000000008003; 0x8000000000008002; 0x8000000000000080;
    0x000000000000800A; 0x800000008000000A; 0x8000000080008081;
    0x8000000000008080; 0x0000000080000001; 0x8000000080008008 ].

(** Rotation offsets, the one of lane [(x, y)] at position [x + 5 y]. *)
Definition rotationOffsets : list Z :=
  [ 0; 1; 62; 28; 27;
    36; 44; 6; 55; 20;
    3; 10; 43; 25; 39;
    41; 45; 15; 21; 8;
    18; 2; 61; 56; 14 ].

Definition coords : list (nat * nat) :=
  flat_map (fun y => map (fun x => (x, y)) (seq 0 5)) (seq 0 5).

Definition theta (st : list lane) : list lane :=
  let c := fun x =>
    Z.lxor (get st x 0) (Z.lxor (get st x 1)
      (Z.lxor (get st x 2) (Z.lxor (get st x 3) (get st x 4)))) in
  let d := fun x => Z.lxor (c (x + 4)%nat) (rotl (c (x + 1)%nat) 1) in
  map (fun '(x, y) => Z.lxor (get st x y) (d x)) coords.

(** The lane that lands at [(x', y')] comes from [x = x' + 3 y'], [y = x']. *)
Definition rhoPi (st : list lane) : list lane :=
  map (fun '(x', y') =>
         let x := ((x' + 3 * y') mod 5)%nat in
         let y := x' in
         rotl (get st x y) (nth (x + 5 * y)%nat rotationOffsets 0)) coords.

Definition chi (st : list lane) : list lane :=
  map (fun '(x, y) =>
         Z.lxor (get st x y)
           (Z.land (Z.lxor (get st (x + 1) y) mask64) (get st (x + 2) y)))
      coords.

Definition iota (rc : lane) (st : list lane) : list lane :=
  match st with
  | a :: r => Z.lxor a rc :: r
  | [] => []
  end.

Definition round (st : list lane) (rc : lane) : list lane :=
  iota rc (chi (rhoPi (theta st))).

Definition keccakF1600 (st : list lane) : list lane :=
  fold_left round roundConstants st.

Definition rate : nat := 136.

(** A lane is eight bytes, little endian. *)
Definition le_lane (b : list byte) : lane :=
  fold_right (fun x acc => Z_of_byte x + 256 * acc) 0 b.

Fixpoint lanes_of (n : nat) (b : list byte) : list lane :=
  match n with
  | O => []
  | S n' => le_lane (firstn 8 b) :: lanes_of n' (skipn 8 b)
  end.

Fixpoint xorInto (st blk : list lane) : list lane :=
  match st, blk with
  | s :: st', w :: blk' => Z.lxor s w :: xorInto st' blk'
  | _, _ => st
  end.

Definition pad (msg : list byte) : list byte :=
  let q := (rate - (length msg mod rate))%nat in
  if (q =? 1)%nat then msg ++ [x81]
  else msg ++ [x01] ++ repeat x00 (q - 2) ++ [x80].

Fixpoint absorb (blocks : nat) (st : list lane) (b : list byte) : list lane :=
  match blocks with
  | O => st
  | S blocks' =>
      absorb blocks'
        (keccakF1600 (xorInto st (lanes_of 17 (firstn rate b))))
        (skipn rate b)
  end.

Definition squeeze (st : list lane) : list byte :=
  map (fun i =>
         byte_of_Z (Z.shiftr (nth (i / 8) st 0) (8 * Z.of_nat (i mod 8))))
      (seq 0 32).

(** [ethCrypto.Keccak256Hash(b).Bytes()] *)
Definition Keccak256Hash (msg : list byte) : list byte :=
  let p := pad msg in
  squeeze (absorb (length p / rate) (repeat 0 25) p).

End ethCrypto.

(** [func (tx *L1Tx) SetID() error].  As for [SetType], an error is returned
    before any field is written.  [tx.TxID] is a [[33]byte]: index 0 is in
    range, and [copy] into [tx.TxID[1:]] fills at most 32 bytes. *)
Definition SetID (tx : L1Tx) : outcome L1Tx :=
  let b : list byte := [] in
  '(tx, b) <--
    (if UserOrigin tx then
       match ToForgeL1TxsNum tx with
       | None => Err (Wrap ErrToForgeL1TxsNumNil)
       | Some toForgeL1TxsNum =>
           let tx := set_TxID (<[0%nat := TxIDPrefixL1UserTx]> (TxID tx)) tx in
           let toForgeL1TxsNumBytes := PutUint64 (to_uint64 toForgeL1TxsNum) in
           Ok (tx, b ++ toForgeL1TxsNumBytes)
       end
     else
       match BatchNum tx with
       | None => Err (Wrap ErrBatchNumNil)
       | Some batchNum =>
           let tx := set_TxID (<[0%nat := TxIDPrefixL1CoordTx]> (TxID tx)) tx in
           let batchNumBytes := PutUint64 (to_uint64 batchNum) in
           Ok (tx, b ++ batchNumBytes)
       end);
  let positionBytes := PutUint16 (to_uint16 (Position tx)) in
  let b := b ++ positionBytes in
  let h := ethCrypto.Keccak256Hash b in
  Ok (set_TxID (firstn 1 (TxID tx) ++ copy (skipn 1 (TxID tx)) h) tx).

(** Two txs to run [SetID] on: a user tx queued in [ToForgeL1TxsNum = 123456]
    at position 71, and a coordinator tx of batch 3 at position 0. *)
Definition l1UserTx : L1Tx :=
  mkL1Tx (zeros TxIDLen) (Some 123456) 71 true 300 0 (zeros 20) (zeros 32)
         301 (Some 1) None (Some 2) None 0 (zeros 32) None EmptyString None.

Definition l1CoordinatorTx : L1Tx :=
  mkL1Tx (zeros TxIDLen) None 0 false 0 0 (zeros 20) (zeros 32)
         0 (Some 0) None (Some 0) None 0 (zeros 32) None EmptyString (Some 3).

(** ** Decoding from bytes *)

(** Modelled from the spec: the wire lengths [RollupConstL1UserTotalBytes]
    and [RollupConstL1CoordinatorTotalBytes], whose declarations are not
    among the sources; the specification fixes the L1 user tx at 78 bytes and
    the L1 coordinator tx at 101 bytes (sections 4.B and 6). *)
Definition RollupConstL1UserTotalBytes : nat := 78.
Definition RollupConstL1CoordinatorTotalBytes : nat := 101.

(** Modelled from the spec: [SwapEndianness], whose body is not among the
    sources; the specification describes it as the byte reversal used to
    normalise BJJ keys (section 4.A). *)
Definition SwapEndianness (b : list byte) : list byte := rev b.

(** Modelled from the spec: [Float40FromBytes] and [Float40.BigInt], whose
    bodies are not among the sources; the specification describes a Float40
    as five bytes holding [mantissa * 10^exponent], the exponent in the high
    5 bits and the mantissa in the low 35 bits, fixed-width integers being
    big endian, and its decoding as exact (sections 3.1 and 4.A). *)
Definition Float40FromBytes (b : list byte) : Z := be_value b.

Definition Float40_BigInt (f40 : Z) : outcome Z :=
  let e := Z.land (Z.shiftr f40 35) 0x1F in
  let m := Z.land f40 0x07FFFFFFFF in
  Ok (m * 10 ^ e).

(** The amount that five bytes denote as a Float40: the mantissa in the low
    35 bits times ten to the exponent in the high 5 bits. *)
Definition float40_value (s : list byte) : Z :=
  (be_value s mod 2 ^ 35) * 10 ^ ((be_value s / 2 ^ 35) mod 2 ^ 5).

(** [ethCommon.BytesToAddress]: the last 20 bytes of [b], left-padded with
    zeros. *)
Definition BytesToAddress (b : list byte) : list byte :=
  let b := if (20 <? length b)%nat then skipn (length b - 20) b else b in
  firstn (20 - length b) (zeros 20) ++ copy (skipn (20 - length b) (zeros 20)) b.

(** [func L1UserTxFromBytes(b []byte)], returning the decoded tx or an
    error. *)
Definition L1UserTxFromBytes (b : list byte) : outcome L1Tx :=
  if negb (length b =? RollupConstL1UserTotalBytes)%nat then
    Err (Wrap (ErrL1TxBytesLen 68 (length b)))
  else
    let tx := set_UserOrigin true zeroL1Tx in
    s <-- slice b 0 20;
    let tx := set_FromEthAddr (BytesToAddress s) tx in
    pkCompB <-- slice b 20 52;
    let pkCompL := SwapEndianness pkCompB in
    let tx := set_FromBJJ (copy (FromBJJ tx) pkCompL) tx in
    s <-- slice b 52 58;
    fromIdx <-- IdxFromBytes s;
    let tx := set_FromIdx fromIdx tx in
    s <-- slice b 58 63;
    depositAmount <-- Float40_BigInt (Float40FromBytes s);
    let tx := set_DepositAmount (Some depositAmount) tx in
    s <-- slice b 63 68;
    amount <-- Float40_BigInt (Float40FromBytes s);
    let tx := set_Amount (Some amount) tx in
    s <-- slice b 72 78;
    toIdx <-- IdxFromBytes s;
    let tx := set_ToIdx toIdx tx in
    Ok tx.

(** The tx that the bytes of a 78-byte buffer denote, field by field. *)
Definition decodedL1UserTx (b : list byte) : L1Tx :=
  mkL1Tx (zeros TxIDLen) None 0 true
         (be_value (sub b 52 58)) 0
         (sub b 0 20)
         (SwapEndianness (sub b 20 52))
         (be_value (sub b 72 78))
         (Some (float40_value (sub b 63 68)))
         None
         (Some (float40_value (sub b 58 63)))
         None 0 (zeros 32) None EmptyString None.

(** A 78-byte L1 user tx: an address of [0x11] bytes, a key of [0x22] bytes
    ending in [0x23], [FromIdx = 256], the deposit of exponent 31 and mantissa
    [2^33], the amount 5, four reserved bytes and [ToIdx = 257]. *)
Definition l1UserTxBytes : list byte :=
  repeat x11 20 ++ repeat x22 31 ++ [x23]
  ++ [x00; x00; x00; x00; x01; x00]
  ++ [xfa; x00; x00; x00; x00]
  ++ [x00; x00; x00; x00; x05]
  ++ [x00; x00; x00; x00]
  ++ [x00; x00; x00; x00; x01; x01].

(** [b[i]] on a slice. *)
Definition index (b : list byte) (i : nat) : outcome byte :=
  match b !! i with
  | Some x => Ok x
  | None => Panic
  end.

(** [func L1CoordinatorTxFromBytes(b []byte, chainID *big.Int,
    tokamakAddress ethCommon.Address)], returning the decoded tx or an
    error.  The signature
    primitives of go-ethereum and the account-creation hash are taken as
    they are, with their error returns. *)
Section L1Coordinator.

Variable PublicKey : Type.
Variable RollupConstEthAddressInternalOnly : list byte.
(** [AccountCreationAuth{BJJ: bjj}.HashToSign(chainID, tokamakAddress)] *)
Variable HashToSign : list byte -> Z -> list byte -> outcome (list byte).
Variable Ecrecover : list byte -> list byte -> outcome (list byte).
Variable UnmarshalPubkey : list byte -> outcome PublicKey.
Variable PubkeyToAddress : PublicKey -> list byte.

Definition L1CoordinatorTxFromBytes (b : list byte) (chainID : option Z)
    (tokamakAddress : list byte) : outcome L1Tx :=
  if negb (length b =? RollupConstL1CoordinatorTotalBytes)%nat then
    Err (Wrap (ErrL1CoordinatorTxBytesLen 101 (length b)))
  else
    let tx := set_UserOrigin false zeroL1Tx in
    v <-- index b 0;
    s <-- slice b 1 33;
    r <-- slice b 33 65;
    pkCompB <-- slice b 65 97;
    let pkCompL := SwapEndianness pkCompB in
    let tx := set_FromBJJ (copy (FromBJJ tx) pkCompL) tx in
    let tx := set_Amount (Some 0) tx in
    let tx := set_DepositAmount (Some 0) tx in
    if Z_of_byte v >? 0 then
      b0 <-- index b 0;
      let v := byte_of_Z (Z_of_byte b0 - 27) in
      let signature : list byte := [] in
      let signature := signature ++ r in
      let signature := signature ++ s in
      let signature := signature ++ [v] in
      c <-- match chainID with
            | Some c => Ok (BigInt_Uint64 c)
            | None => Panic
            end;
      h <-- HashToSign (FromBJJ tx) (to_uint16 c) tokamakAddress;
      pubKeyBytes <-- Ecrecover h signature;
      pubKey <-- UnmarshalPubkey pubKeyBytes;
      let tx := set_FromEthAddr (PubkeyToAddress pubKey) tx in
      Ok tx
    else
      let tx := set_FromEthAddr RollupConstEthAddressInternalOnly tx in
      Ok tx.

End L1Coordinator.

(** A 101-byte L1 coordinator tx without signature ([v = 0]): 64 zero bytes
    for [s] and [r], a key of [0x22] bytes ending in [0x23] and four
    trailing bytes. *)
Definition l1CoordinatorTxBytes : list byte :=
  [x00] ++ repeat x00 64 ++ repeat x22 31 ++ [x23] ++ [x00; x00; x00; x00].

(** ** The account store *)
Module statedb.

(** [common.Account] *)
Record Account : Type := mkAccount {
  Idx : Z;
  BatchNum : Z;
  BJJ : list byte;
  Sign : bool;
  Ay : option Z;
  EthAddr : list byte;
  Nonce : Z;
  Balance : option Z
}.

Inductive dberror : Type :=
| ErrAccountAlreadyExists
| ErrNotFound.

(** Modelled from the spec: [StateDB], [CreateAccount] and [GetAccount], whose
    code is not among the sources (only the test [TestStateDBWithoutMT] that
    calls them is); the specification (section 4.C) describes a key-value
    store of accounts keyed by [Idx], [CreateAccount(idx, account)] failing
    with [AccountAlreadyExists] if [idx] is already present and writing the
    account otherwise, and [GetAccount(idx)] failing with [ErrNotFound] if
    absent.  The Merkle proof that [CreateAccount] returns is left out. *)
Record StateDB : Type := mkStateDB {
  db : gmap Z Account
}.

Definition NewStateDB : StateDB := mkStateDB ∅.

Definition GetAccount (sdb : StateDB) (idx : Z) : Account + dberror :=
  match db sdb !! idx with
  | Some a => inl a
  | None => inr ErrNotFound
  end.

(** The store after the call, and the error returned if any. *)
Definition CreateAccount (sdb : StateDB) (idx : Z) (account : Account)
    : StateDB * option dberror :=
  match db sdb !! idx with
  | Some _ => (sdb, Some ErrAccountAlreadyExists)
  | None => (mkStateDB (<[idx := account]> (db sdb)), None)
  end.

(** [newAccount] of the store's test: account [i] has index [256 + i], nonce
    [i] and balance 1000; its key and address, which the test draws from a
    key generator, are left at zero. *)
Definition newAccount (i : Z) : Account :=
  mkAccount (256 + i) 0 (zeros 32) false None (zeros 20) i (Some 1000).

End statedb.

(** ** More of [common/l1tx.go] *)

Definition set_Position (v : Z) (t : L1Tx) : L1Tx :=
  mkL1Tx (TxID t) (ToForgeL1TxsNum t) v (UserOrigin t) (FromIdx t)
         (EffectiveFromIdx t) (FromEthAddr t) (FromBJJ t) (ToIdx t)
         (Amount t) (EffectiveAmount t) (DepositAmount t)
         (EffectiveDepositAmount t) (EthBlockNum t) (EthTxHash t) (L1Fee t)
         (Type_ t) (BatchNum t).

Definition set_EffectiveAmount (v : option Z) (t : L1Tx) : L1Tx :=
  mkL1Tx (TxID t) (ToForgeL1TxsNum t) (Position t) (UserOrigin t) (FromIdx t)
         (EffectiveFromIdx t) (FromEthAddr t) (FromBJJ t) (ToIdx t)
         (Amount t) v (DepositAmount t)
         (EffectiveDepositAmount t) (EthBlockNum t) (EthTxHash t) (L1Fee t)
         (Type_ t) (BatchNum t).

(** Comparison of two byte arrays, [==] on a [TxID]. *)
Fixpoint bytes_eqb (a b : list byte) : bool :=
  match a, b with
  | [], [] => true
  | x :: a', y :: b' => Byte.eqb x y && bytes_eqb a' b'
  | _, _ => false
  end.

(** The errors of [NewL1Tx]: one of [SetType] or [SetID], or one of its own
    two [fmt.Errorf] messages, with the two values each prints. *)
Inductive NewL1TxError : Type :=
| ErrFrom (e : error)
| ErrTypeMismatch (typ should : TxType)
| ErrTxIDMismatch (txID should : list byte).

(** What a call [NewL1Tx(tx)] leaves: the tx behind the pointer after the
    call, whether the pointer returned is [tx] ([true]) or nil ([false]), and
    the error returned; or a panic. *)
Inductive NewL1TxReturn : Type :=
| Returns (tx : L1Tx) (ptr : bool) (err : option NewL1TxError)
| Panics.

(** [func NewL1Tx(tx *L1Tx)]: [SetType] and [SetID] write through the
    pointer, so the tx of the caller keeps what they wrote also when an error
    is returned. *)
Definition NewL1Tx (tx : L1Tx) : NewL1TxReturn :=
  let txTypeOld := Type_ tx in
  match SetType tx with
  | Panic => Panics
  | Err err => Returns tx false (Some (ErrFrom (Wrap err)))
  | Ok tx =>
      if negb (String.eqb txTypeOld EmptyString)
         && negb (String.eqb txTypeOld (Type_ tx))
      then Returns tx false (Some (ErrTypeMismatch (Type_ tx) txTypeOld))
      else
        let txIDOld := TxID tx in
        match SetID tx with
        | Panic => Panics
        | Err err => Returns tx false (Some (ErrFrom (Wrap err)))
        | Ok tx =>
            if negb (bytes_eqb txIDOld (zeros TxIDLen))
               && negb (bytes_eqb txIDOld (TxID tx))
            then Returns tx true (Some (ErrTxIDMismatch (TxID tx) txIDOld))
            else Returns tx true None
        end
  end.

(** Modelled from the spec: [Float40BytesLength], whose declaration is not
    among the sources; the specification fixes a Float40 at 5 bytes
    (sections 3.1 and 6). *)
Definition Float40BytesLength : nat := 5.

(** [ethCommon.LeftPadBytes(slice, l)]: the slice itself when it has [l]
    bytes or more, else a new slice of [l] bytes that ends with it. *)
Definition LeftPadBytes (slice : list byte) (l : nat) : list byte :=
  if (l <=? length slice)%nat then slice
  else
    let padded := zeros l in
    firstn (l - length slice) padded
    ++ copy (skipn (l - length slice) padded) slice.

(** [func L1TxFromDataAvailability(b []byte, nLevels uint32)].  [nLevels] is
    a [uint32], so that [idxLen*2 + Float40BytesLength] does not wrap.  The
    function checks no length before it slices. *)
Definition L1TxFromDataAvailability (b : list byte) (nLevels : nat)
    : outcome L1Tx :=
  let idxLen := (nLevels / 8)%nat in
  fromIdxBytes <-- slice b 0 idxLen;
  toIdxBytes <-- slice b idxLen (idxLen * 2);
  amountBytes <-- slice b (idxLen * 2) (idxLen * 2 + Float40BytesLength);
  let l1tx := zeroL1Tx in
  fromIdx <-- IdxFromBytes (LeftPadBytes fromIdxBytes 6);
  let l1tx := set_FromIdx fromIdx l1tx in
  toIdx <-- IdxFromBytes (LeftPadBytes toIdxBytes 6);
  let l1tx := set_ToIdx toIdx l1tx in
  effectiveAmount <-- Float40_BigInt (Float40FromBytes amountBytes);
  let l1tx := set_EffectiveAmount (Some effectiveAmount) l1tx in
  Ok l1tx.

(** A slice with its capacity: [sl_backing] holds the elements from the
    start of the slice up to its capacity, of which the first [sl_len] are
    the elements of the slice. *)
Record Slice : Type := mkSlice {
  sl_backing : list byte;
  sl_len : nat
}.

Definition cap (s : Slice) : nat := length (sl_backing s).

Definition elems (s : Slice) : list byte := firstn (sl_len s) (sl_backing s).

(** The slice expression [s[lo:hi]] on a slice: it panics unless
    [lo <= hi <= cap(s)], whatever [len(s)], and gives the slice of length
    [hi - lo] and capacity [cap(s) - lo] over the same array. *)
Definition slice_cap (s : Slice) (lo hi : nat) : outcome Slice :=
  if (lo <=? hi)%nat && (hi <=? cap s)%nat
  then Ok (mkSlice (skipn lo (sl_backing s)) (hi - lo))
  else Panic.

(** [L1TxFromDataAvailability] on a slice with its capacity.  The function
    reads [b] through slice expressions only, never through [len(b)]. *)
Definition L1TxFromDataAvailability_cap (b : Slice) (nLevels : nat)
    : outcome L1Tx :=
  let idxLen := (nLevels / 8)%nat in
  fromIdxBytes <-- slice_cap b 0 idxLen;
  toIdxBytes <-- slice_cap b idxLen (idxLen * 2);
  amountBytes <-- slice_cap b (idxLen * 2) (idxLen * 2 + Float40BytesLength);
  let l1tx := zeroL1Tx in
  fromIdx <-- IdxFromBytes (LeftPadBytes (elems fromIdxBytes) 6);
  let l1tx := set_FromIdx fromIdx l1tx in
  toIdx <-- IdxFromBytes (LeftPadBytes (elems toIdxBytes) 6);
  let l1tx := set_ToIdx toIdx l1tx in
  effectiveAmount <-- Float40_BigInt (Float40FromBytes (elems amountBytes));
  let l1tx := set_EffectiveAmount (Some effectiveAmount) l1tx in
  Ok l1tx.

(** A buffer with the bytes [lo:hi] replaced by [r]. *)
Definition splice (b : list byte) (lo hi : nat) (r : list byte) : list byte :=
  firstn lo b ++ r ++ skipn hi b.

(** ** The history store: what [setExtraInfoForgedL1UserTxs] updates *)
Module historydb.

(** The local [txUpdate] of [setExtraInfoForgedL1UserTxs]. *)
Record txUpdate : Type := mkTxUpdate {
  ID : list byte;
  AmountSuccess : bool;
  DepositAmountSuccess : bool;
  upd_EffectiveFromIdx : Z
}.

(** The local [equal], [a.Cmp(b) == 0]: [Cmp] answers 0 on two equal
    pointers, nil included, before it reads either number. *)
Definition equal (a b : option Z) : outcome bool :=
  match a, b with
  | None, None => Ok true
  | Some x, Some y => Ok (x =? y)
  | _, _ => Panic
  end.

(** The loop of [setExtraInfoForgedL1UserTxs]: the list [txUpdates] that the
    function builds from the forged txs and, when it is not empty, sends to
    the database in one UPDATE. *)
Fixpoint txUpdates (txs : list L1Tx) (acc : list txUpdate)
    : outcome (list txUpdate) :=
  match txs with
  | [] => Ok acc
  | tx :: txs' =>
      amountSuccess <-- equal (Amount tx) (EffectiveAmount tx);
      depositAmountSuccess <--
        equal (DepositAmount tx) (EffectiveDepositAmount tx);
      if negb amountSuccess || negb depositAmountSuccess || (FromIdx tx =? 0)
      then txUpdates txs'
             (acc ++ [mkTxUpdate (TxID tx) amountSuccess depositAmountSuccess
                        (EffectiveFromIdx tx)])
      else txUpdates txs' acc
  end.

End historydb.

(** The update that [setExtraInfoForgedL1UserTxs] records for a tx, and
    whether it records one: when an effective amount differs from the amount
    or the tx creates its account ([FromIdx = 0]). *)
Definition amountsEqual (a b : option Z) : bool :=
  match a, b with
  | None, None => true
  | Some x, Some y => x =? y
  | _, _ => false
  end.

Definition updateOf (tx : L1Tx) : historydb.txUpdate :=
  historydb.mkTxUpdate (TxID tx)
    (amountsEqual (Amount tx) (EffectiveAmount tx))
    (amountsEqual (DepositAmount tx) (EffectiveDepositAmount tx))
    (EffectiveFromIdx tx).

Definition needsUpdate (tx : L1Tx) : bool :=
  negb (amountsEqual (Amount tx) (EffectiveAmount tx))
  || negb (amountsEqual (DepositAmount tx) (EffectiveDepositAmount tx))
  || (FromIdx tx =? 0).

(** Neither pair of amounts of the tx has exactly one nil pointer. *)
Definition amountsComparable (tx : L1Tx) : Prop :=
  (Amount tx = None <-> EffectiveAmount tx = None) /\
  (DepositAmount tx = None <-> EffectiveDepositAmount tx = None).

(** A forged user tx of queue 1, with its amounts and effective amounts. *)
Definition forgedL1UserTx (position fromIdx amount effectiveAmount
    depositAmount effectiveDepositAmount : Z) : L1Tx :=
  mkL1Tx (zeros TxIDLen) (Some 1) position true fromIdx fromIdx
         (zeros 20) (zeros 32) 0
         (Some amount) (Some effectiveAmount)
         (Some depositAmount) (Some effectiveDepositAmount)
         0 (zeros 32) None EmptyString (Some 1).

(** * Properties *)

(** ** Results *)

Lemma obind_Ok_inv {A B} (m : outcome A) (k : A -> outcome B) (y : B) :
  obind m k = Ok y -> exists x, m = Ok x /\ k x = Ok y.
Proof.
  destruct m as [x| |]; cbn; intros H; try discriminate.
  exists x. split; [reflexivity|exact H].
Qed.

(** ** Bytes and big-endian integers *)

Lemma Z_of_byte_range (b : byte) : 0 <= Z_of_byte b < 256.
Proof.
  unfold Z_of_byte. pose proof (Byte.to_N_bounded b). lia.
Qed.

Lemma Z_of_byte_of_Z (z : Z) : Z_of_byte (byte_of_Z z) = z mod 256.
Proof.
  unfold Z_of_byte, byte_of_Z.
  assert (Hr : 0 <= z mod 256 < 256) by (apply Z.mod_pos_bound; lia).
  destruct (Byte.of_N (Z.to_N (z mod 256))) as [b|] eqn:E.
  - apply Byte.to_of_N in E. rewrite E. lia.
  - apply Byte.of_N_None_iff in E. lia.
Qed.

Lemma byte_of_Z_of_byte (b : byte) : byte_of_Z (Z_of_byte b) = b.
Proof.
  unfold byte_of_Z. pose proof (Z_of_byte_range b) as Hr.
  rewrite Z.mod_small by lia. unfold Z_of_byte.
  rewrite N2Z.id, Byte.of_to_N. reflexivity.
Qed.

Lemma be_value_app (a b : list byte) :
  be_value (a ++ b) = be_value a * 256 ^ Z.of_nat (length b) + be_value b.
Proof.
  unfold be_value. rewrite fold_left_app.
  generalize (fold_left (fun acc x => acc * 256 + Z_of_byte x) a 0) as v.
  induction b as [|x b IH]; intros v.
  - simpl. lia.
  - cbn [fold_left length]. rewrite IH, (IH (0 * 256 + Z_of_byte x)).
    rewrite Nat2Z.inj_succ, Z.pow_succ_r by lia. lia.
Qed.

Lemma be_value_bounds (b : list byte) :
  0 <= be_value b < 256 ^ Z.of_nat (length b).
Proof.
  induction b as [|x b IH] using rev_ind.
  - cbn. lia.
  - rewrite be_value_app, length_app. cbn [length].
    replace (Z.of_nat (length b + 1)) with (Z.succ (Z.of_nat (length b))) by lia.
    rewrite Z.pow_succ_r by lia.
    pose proof (Z_of_byte_range x).
    change (be_value [x]) with (0 * 256 + Z_of_byte x).
    change (256 ^ Z.of_nat 1) with 256. nia.
Qed.

(** Bitwise or of a low part and a multiple of a power of two above it. *)
Lemma lor_low_high (a c k : Z) :
  0 <= k -> 0 <= a < 2 ^ k -> Z.lor a (c * 2 ^ k) = a + c * 2 ^ k.
Proof.
  intros Hk Ha.
  assert (Hd : Z.land a (c * 2 ^ k) = 0).
  { apply Z.bits_inj'. intros n Hn.
    rewrite Z.land_spec, Z.bits_0.
    destruct (Z.lt_ge_cases n k) as [Hlt|Hge].
    - rewrite Z.mul_pow2_bits_low by lia. apply andb_false_r.
    - destruct (Z.eq_dec a 0) as [->|Hne].
      + rewrite Z.bits_0. reflexivity.
      + rewrite (Z.bits_above_log2 a n); [reflexivity|lia|].
        apply Z.lt_le_trans with k; [apply Z.log2_lt_pow2; lia | lia]. }
  rewrite <- Z.lxor_lor by exact Hd.
  symmetry. apply Z.add_nocarry_lxor. exact Hd.
Qed.

Lemma Uint64_be (b0 b1 b2 b3 b4 b5 b6 b7 : byte) :
  Uint64 [b0; b1; b2; b3; b4; b5; b6; b7] =
  Ok (be_value [b0; b1; b2; b3; b4; b5; b6; b7]).
Proof.
  unfold Uint64, be_value. cbn [fold_left]. f_equal.
  pose proof (Z_of_byte_range b0). pose proof (Z_of_byte_range b1).
  pose proof (Z_of_byte_range b2). pose proof (Z_of_byte_range b3).
  pose proof (Z_of_byte_range b4). pose proof (Z_of_byte_range b5).
  pose proof (Z_of_byte_range b6). pose proof (Z_of_byte_range b7).
  rewrite !Z.shiftl_mul_pow2 by lia.
  set (x0 := Z_of_byte b0) in *. set (x1 := Z_of_byte b1) in *.
  set (x2 := Z_of_byte b2) in *. set (x3 := Z_of_byte b3) in *.
  set (x4 := Z_of_byte b4) in *. set (x5 := Z_of_byte b5) in *.
  set (x6 := Z_of_byte b6) in *. set (x7 := Z_of_byte b7) in *.
  rewrite (lor_low_high (x1 * 2 ^ 48) x0 56) by lia.
  replace (x1 * 2 ^ 48 + x0 * 2 ^ 56)
    with ((x1 + x0 * 2 ^ 8) * 2 ^ 48) by lia.
  rewrite (lor_low_high (x2 * 2 ^ 40) _ 48) by lia.
  replace (x2 * 2 ^ 40 + (x1 + x0 * 2 ^ 8) * 2 ^ 48)
    with ((x2 + x1 * 2 ^ 8 + x0 * 2 ^ 16) * 2 ^ 40) by lia.
  rewrite (lor_low_high (x3 * 2 ^ 32) _ 40) by lia.
  replace (x3 * 2 ^ 32 + (x2 + x1 * 2 ^ 8 + x0 * 2 ^ 16) * 2 ^ 40)
    with ((x3 + x2 * 2 ^ 8 + x1 * 2 ^ 16 + x0 * 2 ^ 24) * 2 ^ 32) by lia.
  rewrite (lor_low_high (x4 * 2 ^ 24) _ 32) by lia.
  replace (x4 * 2 ^ 24
           + (x3 + x2 * 2 ^ 8 + x1 * 2 ^ 16 + x0 * 2 ^ 24) * 2 ^ 32)
    with ((x4 + x3 * 2 ^ 8 + x2 * 2 ^ 16 + x1 * 2 ^ 24 + x0 * 2 ^ 32)
          * 2 ^ 24) by lia.
  rewrite (lor_low_high (x5 * 2 ^ 16) _ 24) by lia.
  replace (x5 * 2 ^ 16
           + (x4 + x3 * 2 ^ 8 + x2 * 2 ^ 16 + x1 * 2 ^ 24 + x0 * 2 ^ 32)
             * 2 ^ 24)
    with ((x5 + x4 * 2 ^ 8 + x3 * 2 ^ 16 + x2 * 2 ^ 24 + x1 * 2 ^ 32
           + x0 * 2 ^ 40) * 2 ^ 16) by lia.
  rewrite (lor_low_high (x6 * 2 ^ 8) _ 16) by lia.
  replace (x6 * 2 ^ 8
           + (x5 + x4 * 2 ^ 8 + x3 * 2 ^ 16 + x2 * 2 ^ 24 + x1 * 2 ^ 32
              + x0 * 2 ^ 40) * 2 ^ 16)
    with ((x6 + x5 * 2 ^ 8 + x4 * 2 ^ 16 + x3 * 2 ^ 24 + x2 * 2 ^ 32
           + x1 * 2 ^ 40 + x0 * 2 ^ 48) * 2 ^ 8) by lia.
  rewrite (lor_low_high x7 _ 8) by lia.
  lia.
Qed.

Lemma be_value_zeros_app (n : nat) (b : list byte) :
  be_value (zeros n ++ b) = be_value b.
Proof.
  rewrite be_value_app.
  assert (Hz : be_value (zeros n) = 0).
  { induction n as [|n IH]; [reflexivity|].
    change (zeros (S n)) with ([x00] ++ zeros n).
    rewrite be_value_app, IH. change (be_value [x00]) with 0. lia. }
  rewrite Hz. lia.
Qed.

Lemma IdxFromBytes_be (s : list byte) :
  length s = 6%nat -> IdxFromBytes s = Ok (be_value s).
Proof.
  intros Hs.
  destruct s as [|c0 [|c1 [|c2 [|c3 [|c4 [|c5 [|c6 s]]]]]]]; try discriminate.
  change (IdxFromBytes [c0; c1; c2; c3; c4; c5])
    with (idx <-- Uint64 [x00; x00; c0; c1; c2; c3; c4; c5]; Ok idx).
  rewrite Uint64_be. reflexivity.
Qed.

Lemma IdxFromBytes_length (s : list byte) :
  length s <> 6%nat -> IdxFromBytes s = Err (ErrIdxBytesLen (length s) 6).
Proof.
  intros Hs. unfold IdxFromBytes, IdxBytesLen.
  destruct (Nat.eqb_spec (length s) 6) as [E|E]; [contradiction|reflexivity].
Qed.

Lemma be_bytes_length (n : nat) (v : Z) : length (be_bytes n v) = n.
Proof.
  revert v. induction n as [|n IH]; intros v; [reflexivity|].
  cbn [be_bytes]. rewrite length_app, IH. cbn. lia.
Qed.

Lemma be_value_be_bytes (n : nat) (v : Z) :
  be_value (be_bytes n v) = v mod 256 ^ Z.of_nat n.
Proof.
  revert v. induction n as [|n IH]; intros v.
  - cbn. rewrite Z.mod_1_r. reflexivity.
  - cbn [be_bytes]. rewrite be_value_app, IH. cbn [length].
    change (Z.of_nat 1) with 1. rewrite Z.pow_1_r.
    change (be_value [byte_of_Z v]) with (0 * 256 + Z_of_byte (byte_of_Z v)).
    rewrite Z_of_byte_of_Z.
    rewrite Nat2Z.inj_succ, Z.pow_succ_r by lia.
    assert (Hp : 0 < 256 ^ Z.of_nat n) by (apply Z.pow_pos_nonneg; lia).
    rewrite (Z.rem_mul_r v 256 (256 ^ Z.of_nat n)) by lia. lia.
Qed.

Lemma PutUint64_be_bytes (v : Z) : PutUint64 v = be_bytes 8 v.
Proof.
  unfold PutUint64. cbn [be_bytes app].
  rewrite !Z.shiftr_div_pow2 by lia.
  rewrite !Z.div_div by lia. reflexivity.
Qed.

Lemma PutUint16_be_bytes (v : Z) : PutUint16 v = be_bytes 2 v.
Proof.
  unfold PutUint16. cbn [be_bytes app].
  rewrite !Z.shiftr_div_pow2 by lia. reflexivity.
Qed.

Lemma copy_same_length (dst src : list byte) :
  length src = length dst -> copy dst src = src.
Proof.
  intros H. unfold copy.
  rewrite <- H, firstn_all, H, skipn_all, app_nil_r. reflexivity.
Qed.

(** ** [Idx.Bytes] *)

Lemma Idx_Bytes_in_range (idx : Z) :
  0 <= idx <= 2 ^ 48 - 1 -> Idx_Bytes idx = Ok (be_bytes 6 idx).
Proof.
  intros Hle. unfold Idx_Bytes, maxIdxValue, Wrap.
  destruct (Z.gtb_spec idx 0xffffffffffff) as [Hgt|_]; [lia|].
  unfold to_uint64. rewrite Z.mod_small by lia.
  rewrite PutUint64_be_bytes.
  assert (H6 : skipn 2 (be_bytes 8 idx) = be_bytes 6 idx).
  { cbn [be_bytes app skipn]. rewrite !Z.div_div by lia.
    cbn [Z.mul Pos.mul].
    replace (idx / 281474976710656) with 0
      by (symmetry; apply Z.div_small; lia).
    replace (idx / 72057594037927936) with 0
      by (symmetry; apply Z.div_small; lia).
    reflexivity. }
  rewrite H6, copy_same_length; [reflexivity|].
  rewrite be_bytes_length. reflexivity.
Qed.

Lemma Idx_Bytes_overflow (idx : Z) :
  idx > 2 ^ 48 - 1 -> Idx_Bytes idx = Err ErrIdxOverflow.
Proof.
  intros Hgt. unfold Idx_Bytes, maxIdxValue, Wrap.
  destruct (Z.gtb_spec idx 0xffffffffffff) as [_|Hle]; [reflexivity|lia].
Qed.

Lemma be_value_be_bytes_6 (idx : Z) :
  0 <= idx <= 2 ^ 48 - 1 -> be_value (be_bytes 6 idx) = idx.
Proof.
  intros H. rewrite be_value_be_bytes. apply Z.mod_small.
  change (256 ^ Z.of_nat 6) with (2 ^ 48). lia.
Qed.

(** C8. [Idx.Bytes] fails with [ErrIdxOverflow] exactly on an index above
    [2^48 - 1], so in particular on [2^48]; on any other index it returns the
    big-endian encoding of the index on six bytes. *)
Theorem Idx_Bytes_overflow_iff (idx : Z) :
  0 <= idx < 2 ^ 64 ->
  (Idx_Bytes idx = Err ErrIdxOverflow <-> idx > 2 ^ 48 - 1) /\
  ((exists e, Idx_Bytes idx = Err e) <-> idx > 2 ^ 48 - 1) /\
  (idx <= 2 ^ 48 - 1 ->
   Idx_Bytes idx = Ok (be_bytes 6 idx) /\
   length (be_bytes 6 idx) = 6%nat /\
   be_value (be_bytes 6 idx) = idx).
Proof.
  intros Hidx.
  split; [|split].
  - split; [|apply Idx_Bytes_overflow].
    intros E. destruct (Z_gt_le_dec idx (2 ^ 48 - 1)) as [Hgt|Hle]; [exact Hgt|].
    rewrite Idx_Bytes_in_range in E by lia. discriminate.
  - split.
    + intros [e E].
      destruct (Z_gt_le_dec idx (2 ^ 48 - 1)) as [Hgt|Hle]; [exact Hgt|].
      rewrite Idx_Bytes_in_range in E by lia. discriminate.
    + intros Hgt. exists ErrIdxOverflow. apply Idx_Bytes_overflow, Hgt.
  - intros Hle. split; [apply Idx_Bytes_in_range; lia|]. split.
    + apply be_bytes_length.
    + apply be_value_be_bytes_6. lia.
Qed.

Lemma Idx_Bytes_overflow_iff_witness :
  (Idx_Bytes (2 ^ 48) = Err ErrIdxOverflow <-> 2 ^ 48 > 2 ^ 48 - 1) /\
  Idx_Bytes 256 = Ok [x00; x00; x00; x00; x01; x00].
Proof.
  split.
  - apply (Idx_Bytes_overflow_iff (2 ^ 48)). lia.
  - apply (Idx_Bytes_overflow_iff 256); lia.
Defined.

(** X2. Decoding what [Idx.Bytes] encodes gives the index back: for every
    index up to [2^48 - 1], [IdxFromBytes] of the six bytes that [Idx.Bytes]
    returns is that index. *)
Lemma Idx_Bytes_roundtrip (idx : Z) :
  0 <= idx <= 2 ^ 48 - 1 ->
  (b <-- Idx_Bytes idx; IdxFromBytes b) = Ok idx.
Proof.
  intros H. rewrite Idx_Bytes_in_range by exact H. cbn [obind].
  rewrite IdxFromBytes_be by apply be_bytes_length.
  rewrite be_value_be_bytes_6 by exact H. reflexivity.
Qed.

(** ** [SetType] *)

Lemma Int64_zero_iff (d : Z) : Int64 d = 0 <-> d mod 2 ^ 64 = 0.
Proof.
  unfold Int64, to_int64.
  assert (Habs : Z.abs d mod 2 ^ 64 = 0 <-> d mod 2 ^ 64 = 0).
  { rewrite !Z.mod_divide by lia. apply Z.divide_abs_r. }
  assert (Hu : 0 <= Z.abs d mod 2 ^ 64 < 2 ^ 64)
    by (apply Z.mod_pos_bound; lia).
  rewrite <- Habs. clear Habs.
  set (u := Z.abs d mod 2 ^ 64) in *.
  destruct (Z.ltb_spec u (2 ^ 63)) as [Hlt|Hge];
    destruct (Z.ltb_spec d 0) as [Hneg|Hpos].
  - destruct (Z.eq_dec u 0) as [->|Hne]; [split; reflexivity|].
    rewrite (Z.mod_opp_l_nz u) by (rewrite ?Z.mod_small; lia).
    rewrite (Z.mod_small u) by lia.
    destruct (Z.ltb_spec (2 ^ 64 - u) (2 ^ 63)); lia.
  - reflexivity.
  - replace (- (u - 2 ^ 64)) with (2 ^ 64 - u) by lia.
    rewrite (Z.mod_small (2 ^ 64 - u)) by lia.
    destruct (Z.ltb_spec (2 ^ 64 - u) (2 ^ 63)); lia.
  - lia.
Qed.

Lemma SetType_rows (tx : L1Tx) :
  (FromIdx tx = 0 -> ToIdx tx = 0 ->
   SetType tx = Ok (set_Type TxTypeCreateAccountDeposit tx)) /\
  (FromIdx tx = 0 -> ToIdx tx >= 256 ->
   SetType tx = Ok (set_Type TxTypeCreateAccountDepositTransfer tx)) /\
  (FromIdx tx >= 256 -> ToIdx tx = 0 ->
   SetType tx = Ok (set_Type TxTypeDeposit tx)) /\
  (FromIdx tx >= 256 -> ToIdx tx = 1 ->
   SetType tx = Ok (set_Type TxTypeForceExit tx)) /\
  (forall d, FromIdx tx >= 256 -> ToIdx tx >= 256 ->
   DepositAmount tx = Some d -> d mod 2 ^ 64 = 0 ->
   SetType tx = Ok (set_Type TxTypeForceTransfer tx)) /\
  (forall d, FromIdx tx >= 256 -> ToIdx tx >= 256 ->
   DepositAmount tx = Some d -> d mod 2 ^ 64 <> 0 ->
   SetType tx = Ok (set_Type TxTypeDepositTransfer tx)).
Proof.
  unfold SetType, IdxUserThreshold, UserThreshold, Wrap.
  repeat split; intros;
    repeat match goal with
    | |- context [?a =? ?b] => destruct (Z.eqb_spec a b); try lia
    | |- context [?a >=? ?b] => destruct (Z.geb_spec a b); try lia
    | H : DepositAmount tx = Some _ |- _ => rewrite H; clear H
    end; try reflexivity.
  - exfalso. apply Int64_zero_iff in H2. lia.
  - exfalso. apply Int64_zero_iff in e. lia.
Qed.

Lemma SetType_errors (tx : L1Tx) :
  (FromIdx tx <> 0 -> FromIdx tx < 256 ->
   SetType tx = Err (ErrInvalidFromIdx (FromIdx tx))) /\
  (FromIdx tx = 0 -> ToIdx tx <> 0 -> ToIdx tx < 256 ->
   SetType tx = Err (ErrInvalidToIdx (ToIdx tx))) /\
  (FromIdx tx >= 256 -> ToIdx tx <> 0 -> ToIdx tx <> 1 -> ToIdx tx < 256 ->
   SetType tx = Err (ErrInvalidToIdx (ToIdx tx))).
Proof.
  unfold SetType, IdxUserThreshold, UserThreshold, Wrap.
  repeat split; intros;
    repeat match goal with
    | |- context [?a =? ?b] => destruct (Z.eqb_spec a b); try lia
    | |- context [?a >=? ?b] => destruct (Z.geb_spec a b); try lia
    end; reflexivity.
Qed.

(** On a nil [DepositAmount] the comparison of the two user indexes ends in
    a nil dereference. *)
Lemma SetType_nil_DepositAmount (tx : L1Tx) :
  FromIdx tx >= 256 -> ToIdx tx >= 256 -> DepositAmount tx = None ->
  SetType tx = Panic.
Proof.
  unfold SetType, IdxUserThreshold, UserThreshold. intros H1 H2 H3.
  repeat match goal with
    | |- context [?a =? ?b] => destruct (Z.eqb_spec a b); try lia
    | |- context [?a >=? ?b] => destruct (Z.geb_spec a b); try lia
    end.
  rewrite H3. reflexivity.
Qed.

(** A deposit that is a positive multiple of [2^64] is taken for zero. *)
Lemma SetType_DepositAmount_low_64_bits (tx : L1Tx) (k : Z) :
  FromIdx tx >= 256 -> ToIdx tx >= 256 ->
  DepositAmount tx = Some (k * 2 ^ 64) ->
  SetType tx = Ok (set_Type TxTypeForceTransfer tx).
Proof.
  intros H1 H2 H3.
  apply (proj1 (proj2 (proj2 (proj2 (proj2 (SetType_rows tx))))) (k * 2 ^ 64));
    try assumption.
  apply Z.mod_mul. lia.
Qed.

(** C1. The tx with [FromIdx = 256], [ToIdx = 256] and the deposit
    [2^33 * 10^31], which is positive and is the Float40 of mantissa [2^33]
    and exponent [31], is typed [ForceTransfer] by [SetType], where the table
    of the specification has [DepositTransfer] for a positive deposit between
    two user accounts. *)
Theorem SetType_positive_deposit_typed_ForceTransfer :
  let tx := set_DepositAmount (Some (2 ^ 33 * 10 ^ 31))
              (set_ToIdx 256 (set_FromIdx 256 zeroL1Tx)) in
  FromIdx tx >= 256 /\ ToIdx tx >= 256 /\
  DepositAmount tx = Some (2 ^ 33 * 10 ^ 31) /\ 2 ^ 33 * 10 ^ 31 > 0 /\
  Float40_BigInt (31 * 2 ^ 35 + 2 ^ 33) = Ok (2 ^ 33 * 10 ^ 31) /\
  SetType tx = Ok (set_Type TxTypeForceTransfer tx) /\
  SetType tx <> Ok (set_Type TxTypeDepositTransfer tx).
Proof.
  vm_compute. repeat split; try reflexivity; discriminate.
Qed.

(** C7. [SetType] is idempotent: after a run that succeeds, a second run
    succeeds and returns the tx of the first run unchanged, its [Type]
    included. *)
Theorem SetType_idempotent (tx tx' : L1Tx) :
  SetType tx = Ok tx' ->
  SetType tx' = Ok tx' /\
  (forall tx'', SetType tx' = Ok tx'' -> Type_ tx'' = Type_ tx').
Proof.
  intros H.
  assert (H2 : SetType tx' = Ok tx').
  { revert H. unfold SetType.
    destruct (FromIdx tx =? 0) eqn:E1.
    - destruct (ToIdx tx =? 0) eqn:E2.
      + intros [= <-]. cbn. rewrite E1, E2. reflexivity.
      + destruct (ToIdx tx >=? IdxUserThreshold) eqn:E3; [|discriminate].
        intros [= <-]. cbn. rewrite E1, E2, E3. reflexivity.
    - destruct (FromIdx tx >=? IdxUserThreshold) eqn:E4; [|discriminate].
      destruct (ToIdx tx =? 0) eqn:E2.
      + intros [= <-]. cbn. rewrite E1, E4, E2. reflexivity.
      + destruct (ToIdx tx =? 1) eqn:E5.
        * intros [= <-]. cbn. rewrite E1, E4, E2, E5. reflexivity.
        * destruct (ToIdx tx >=? IdxUserThreshold) eqn:E3; [|discriminate].
          destruct (DepositAmount tx) as [d|] eqn:E6; [|discriminate].
          destruct (Int64 d =? 0) eqn:E7;
            intros [= <-]; cbn; rewrite E1, E4, E2, E5, E3, E6, E7;
            reflexivity. }
  split; [exact H2|].
  intros tx'' H3. rewrite H2 in H3. injection H3 as <-. reflexivity.
Qed.

Lemma SetType_idempotent_witness :
  SetType (set_Type TxTypeForceExit (set_ToIdx 1 (set_FromIdx 300 zeroL1Tx)))
  = Ok (set_Type TxTypeForceExit (set_ToIdx 1 (set_FromIdx 300 zeroL1Tx))).
Proof.
  apply (SetType_idempotent (set_ToIdx 1 (set_FromIdx 300 zeroL1Tx))
           (set_Type TxTypeForceExit (set_ToIdx 1 (set_FromIdx 300 zeroL1Tx)))).
  reflexivity.
Defined.

(** ** [SetID] *)

(** The hash function on the empty string, on a short string and on a
    string that fills two blocks. *)
Example Keccak256Hash_empty :
  map Z_of_byte (ethCrypto.Keccak256Hash []) =
  [0xc5; 0xd2; 0x46; 0x01; 0x86; 0xf7; 0x23; 0x3c;
   0x92; 0x7e; 0x7d; 0xb2; 0xdc; 0xc7; 0x03; 0xc0;
   0xe5; 0x00; 0xb6; 0x53; 0xca; 0x82; 0x27; 0x3b;
   0x7b; 0xfa; 0xd8; 0x04; 0x5d; 0x85; 0xa4; 0x70].
Proof. vm_compute. reflexivity. Qed.

Example Keccak256Hash_abc :
  map Z_of_byte (ethCrypto.Keccak256Hash [x61; x62; x63]) =
  [0x4e; 0x03; 0x65; 0x7a; 0xea; 0x45; 0xa9; 0x4f;
   0xc7; 0xd4; 0x7b; 0xa8; 0x26; 0xc8; 0xd6; 0x67;
   0xc0; 0xd1; 0xe6; 0xe3; 0x3a; 0x64; 0xa0; 0x36;
   0xec; 0x44; 0xf5; 0x8f; 0xa1; 0x2d; 0x6c; 0x45].
Proof. vm_compute. reflexivity. Qed.

Example Keccak256Hash_two_blocks :
  map Z_of_byte (ethCrypto.Keccak256Hash (repeat x61 136)) =
  [0xa6; 0xc4; 0xd4; 0x03; 0x27; 0x9f; 0xe3; 0xe0;
   0xaf; 0x03; 0x72; 0x9c; 0xaa; 0xda; 0x83; 0x74;
   0xb5; 0xca; 0x54; 0xd8; 0x06; 0x53; 0x29; 0xa3;
   0xeb; 0xca; 0xeb; 0x4b; 0x60; 0xaa; 0x38; 0x6e].
Proof. vm_compute. reflexivity. Qed.

Lemma Keccak256Hash_length (msg : list byte) :
  length (ethCrypto.Keccak256Hash msg) = 32%nat.
Proof.
  unfold ethCrypto.Keccak256Hash, ethCrypto.squeeze.
  rewrite length_map, length_seq. reflexivity.
Qed.

(** Writing the prefix at index 0 of a 33-byte array and copying a 32-byte
    hash behind it replaces the whole array. *)
Lemma TxID_write (t h : list byte) (p : byte) :
  length t = TxIDLen -> length h = 32%nat ->
  firstn 1 (<[0%nat := p]> t) ++ copy (skipn 1 (<[0%nat := p]> t)) h = p :: h.
Proof.
  intros Ht Hh. destruct t as [|t0 t]; [discriminate|].
  change (<[0%nat := p]> (t0 :: t)) with (p :: t).
  change (skipn 1 (p :: t)) with t. change (firstn 1 (p :: t)) with [p].
  cbn [app]. f_equal.
  apply copy_same_length. cbn in Ht. unfold TxIDLen in Ht. lia.
Qed.

Lemma set_TxID_twice (v w : list byte) (tx : L1Tx) :
  set_TxID v (set_TxID w tx) = set_TxID v tx.
Proof. reflexivity. Qed.

Lemma SetID_user (tx : L1Tx) (n : Z) :
  length (TxID tx) = TxIDLen ->
  UserOrigin tx = true -> ToForgeL1TxsNum tx = Some n ->
  SetID tx =
  Ok (set_TxID
        (TxIDPrefixL1UserTx ::
         ethCrypto.Keccak256Hash
           (be_bytes 8 (to_uint64 n) ++ be_bytes 2 (to_uint16 (Position tx))))
        tx).
Proof.
  intros Hl Hu Hn. unfold SetID. rewrite Hu, Hn.
  cbn [obind set_TxID TxID Position app].
  rewrite TxID_write by (exact Hl || apply Keccak256Hash_length).
  rewrite PutUint64_be_bytes, PutUint16_be_bytes. reflexivity.
Qed.

Lemma SetID_coordinator (tx : L1Tx) (n : Z) :
  length (TxID tx) = TxIDLen ->
  UserOrigin tx = false -> BatchNum tx = Some n ->
  SetID tx =
  Ok (set_TxID
        (TxIDPrefixL1CoordTx ::
         ethCrypto.Keccak256Hash
           (be_bytes 8 (to_uint64 n) ++ be_bytes 2 (to_uint16 (Position tx))))
        tx).
Proof.
  intros Hl Hu Hn. unfold SetID. rewrite Hu, Hn.
  cbn [obind set_TxID TxID Position app].
  rewrite TxID_write by (exact Hl || apply Keccak256Hash_length).
  rewrite PutUint64_be_bytes, PutUint16_be_bytes. reflexivity.
Qed.

Lemma SetID_user_nil (tx : L1Tx) :
  UserOrigin tx = true -> ToForgeL1TxsNum tx = None ->
  SetID tx = Err ErrToForgeL1TxsNumNil.
Proof. intros Hu Hn. unfold SetID. rewrite Hu, Hn. reflexivity. Qed.

Lemma SetID_coordinator_nil (tx : L1Tx) :
  UserOrigin tx = false -> BatchNum tx = None ->
  SetID tx = Err ErrBatchNumNil.
Proof. intros Hu Hn. unfold SetID. rewrite Hu, Hn. reflexivity. Qed.

(** The identifier the queue or batch number is read from. *)
Lemma SetID_ok_or_nil (tx : L1Tx) :
  length (TxID tx) = TxIDLen ->
  (exists e, SetID tx = Err e /\
     (if UserOrigin tx then ToForgeL1TxsNum tx else BatchNum tx) = None) \/
  (exists id n, SetID tx = Ok (set_TxID id tx) /\
     (if UserOrigin tx then ToForgeL1TxsNum tx else BatchNum tx) = Some n).
Proof.
  intros Hl. destruct (UserOrigin tx) eqn:Hu.
  - destruct (ToForgeL1TxsNum tx) as [n|] eqn:Hn.
    + right. eexists _, n. split; [apply (SetID_user tx n); assumption|reflexivity].
    + left. eexists. split; [apply SetID_user_nil; assumption|reflexivity].
  - destruct (BatchNum tx) as [n|] eqn:Hn.
    + right. eexists _, n.
      split; [apply (SetID_coordinator tx n); assumption|reflexivity].
    + left. eexists. split; [apply SetID_coordinator_nil; assumption|reflexivity].
Qed.

(** C4, as amended.  For a user tx with [ToForgeL1TxsNum] set, [SetID]
    produces a 33-byte [TxID] whose byte 0 is the prefix [0x00] and whose
    bytes 1..32 are the Keccak-256 hash of the ten bytes
    [ToForgeL1TxsNum (8, big endian) ++ Position (2, big endian)]; the prefix
    is not part of what is hashed.  Dually for a coordinator tx, with the
    prefix [0x01] and [BatchNum]. *)
Theorem SetID_TxID_layout (tx : L1Tx) (n : Z) :
  length (TxID tx) = TxIDLen ->
  let preimage :=
    be_bytes 8 (to_uint64 n) ++ be_bytes 2 (to_uint16 (Position tx)) in
  (UserOrigin tx = true -> ToForgeL1TxsNum tx = Some n ->
   exists tx', SetID tx = Ok tx' /\
     length (TxID tx') = 33%nat /\
     TxID tx' = x00 :: ethCrypto.Keccak256Hash preimage /\
     length preimage = 10%nat) /\
  (UserOrigin tx = false -> BatchNum tx = Some n ->
   exists tx', SetID tx = Ok tx' /\
     length (TxID tx') = 33%nat /\
     TxID tx' = x01 :: ethCrypto.Keccak256Hash preimage /\
     length preimage = 10%nat).
Proof.
  intros Hl preimage.
  assert (Hp : length preimage = 10%nat).
  { unfold preimage. rewrite length_app, !be_bytes_length. reflexivity. }
  split; intros Hu Hn.
  - eexists. split; [apply (SetID_user tx n); assumption|].
    cbn [TxID set_TxID length]. rewrite Keccak256Hash_length.
    repeat split; assumption.
  - eexists. split; [apply (SetID_coordinator tx n); assumption|].
    cbn [TxID set_TxID length]. rewrite Keccak256Hash_length.
    repeat split; assumption.
Qed.

Lemma SetID_TxID_layout_witness :
  exists tx', SetID l1UserTx = Ok tx' /\
    length (TxID tx') = 33%nat /\
    TxID tx' =
      x00 :: ethCrypto.Keccak256Hash
               (be_bytes 8 (to_uint64 123456)
                ++ be_bytes 2 (to_uint16 (Position l1UserTx))) /\
    length (be_bytes 8 (to_uint64 123456)
            ++ be_bytes 2 (to_uint16 (Position l1UserTx))) = 10%nat.
Proof.
  apply (proj1 (SetID_TxID_layout l1UserTx 123456 eq_refl)); reflexivity.
Defined.

(** The identifier of the tx queued in 123456 at position 71. *)
Example SetID_l1UserTx :
  option_map (map Z_of_byte)
    (match SetID l1UserTx with Ok tx' => Some (TxID tx') | _ => None end) =
  Some [0x00;
        0xa6; 0xcb; 0xae; 0x3b; 0x86; 0x61; 0xfb; 0x75;
        0xb0; 0x91; 0x9c; 0xa6; 0x60; 0x5a; 0x02; 0xcf;
        0xb0; 0x4d; 0x9c; 0x6d; 0xd1; 0x68; 0x70; 0xfa;
        0x0f; 0xcd; 0xf0; 0x1b; 0xef; 0xa3; 0x27; 0x68].
Proof. vm_compute. reflexivity. Qed.

(** C4, as stated, fails: the [TxID] that [SetID] gives the user tx queued in
    123456 at position 71 is not the prefix followed by the hash of
    [0x00 ++ ToForgeL1TxsNum ++ Position]. *)
Lemma SetID_prefix_not_hashed :
  UserOrigin l1UserTx = true /\
  ToForgeL1TxsNum l1UserTx = Some 123456 /\
  exists tx', SetID l1UserTx = Ok tx' /\
    TxID tx' <>
      x00 :: ethCrypto.Keccak256Hash
               (x00 :: be_bytes 8 (to_uint64 123456)
                ++ be_bytes 2 (to_uint16 (Position l1UserTx))).
Proof.
  split; [reflexivity|]. split; [reflexivity|].
  eexists. split; [apply (SetID_user l1UserTx 123456); reflexivity|].
  vm_compute. discriminate.
Qed.

Lemma SetID_some (tx : L1Tx) (n : Z) :
  (if UserOrigin tx then ToForgeL1TxsNum tx else BatchNum tx) = Some n ->
  exists id, SetID tx = Ok (set_TxID id tx).
Proof.
  intros Hn. unfold SetID.
  destruct (UserOrigin tx); rewrite Hn; cbn [obind];
    eexists; rewrite set_TxID_twice; reflexivity.
Qed.

(** C5. [SetID] fails exactly when the identifier it needs is nil:
    [ToForgeL1TxsNum] for a user tx, [BatchNum] for a coordinator tx.  In
    every other case it succeeds and writes the [TxID]: the tx it returns is
    the tx it was given with [TxID] set to the prefix of its origin followed
    by the Keccak-256 hash of the identifier (8 bytes, big endian) and the
    position (2 bytes, big endian). *)
Theorem SetID_fails_iff_nil (tx : L1Tx) :
  (UserOrigin tx = true ->
   ((exists e, SetID tx = Err e) <-> ToForgeL1TxsNum tx = None)) /\
  (UserOrigin tx = false ->
   ((exists e, SetID tx = Err e) <-> BatchNum tx = None)) /\
  ((forall e, SetID tx <> Err e) ->
   exists id, SetID tx = Ok (set_TxID id tx)) /\
  (length (TxID tx) = TxIDLen ->
   forall n, UserOrigin tx = true -> ToForgeL1TxsNum tx = Some n ->
   SetID tx =
   Ok (set_TxID
         (TxIDPrefixL1UserTx ::
          ethCrypto.Keccak256Hash
            (be_bytes 8 (to_uint64 n) ++ be_bytes 2 (to_uint16 (Position tx))))
         tx)) /\
  (length (TxID tx) = TxIDLen ->
   forall n, UserOrigin tx = false -> BatchNum tx = Some n ->
   SetID tx =
   Ok (set_TxID
         (TxIDPrefixL1CoordTx ::
          ethCrypto.Keccak256Hash
            (be_bytes 8 (to_uint64 n) ++ be_bytes 2 (to_uint16 (Position tx))))
         tx)).
Proof.
  split; [|split; [|split; [|split]]].
  - intros Hu. split.
    + intros [e He]. destruct (ToForgeL1TxsNum tx) as [n|] eqn:Hn; [|reflexivity].
      destruct (SetID_some tx n) as [id Hid]; [rewrite Hu; exact Hn|].
      rewrite Hid in He. discriminate.
    + intros Hn. eexists. apply SetID_user_nil; assumption.
  - intros Hu. split.
    + intros [e He]. destruct (BatchNum tx) as [n|] eqn:Hn; [|reflexivity].
      destruct (SetID_some tx n) as [id Hid]; [rewrite Hu; exact Hn|].
      rewrite Hid in He. discriminate.
    + intros Hn. eexists. apply SetID_coordinator_nil; assumption.
  - intros Hne.
    destruct (if UserOrigin tx then ToForgeL1TxsNum tx else BatchNum tx)
      as [n|] eqn:Hn.
    + exact (SetID_some tx n Hn).
    + exfalso. destruct (UserOrigin tx) eqn:Hu.
      * apply (Hne ErrToForgeL1TxsNumNil). apply SetID_user_nil; assumption.
      * apply (Hne ErrBatchNumNil). apply SetID_coordinator_nil; assumption.
  - intros Hl n Hu Hn. apply SetID_user; assumption.
  - intros Hl n Hu Hn. apply SetID_coordinator; assumption.
Qed.

Lemma SetID_fails_iff_nil_witness :
  ((exists e, SetID l1UserTx = Err e) <-> ToForgeL1TxsNum l1UserTx = None) /\
  ((exists e, SetID l1CoordinatorTx = Err e) <->
   BatchNum l1CoordinatorTx = None) /\
  ((exists e, SetID (set_UserOrigin true l1CoordinatorTx) = Err e) <->
   ToForgeL1TxsNum (set_UserOrigin true l1CoordinatorTx) = None) /\
  SetID l1UserTx =
  Ok (set_TxID
        (TxIDPrefixL1UserTx ::
         ethCrypto.Keccak256Hash
           (be_bytes 8 (to_uint64 123456)
            ++ be_bytes 2 (to_uint16 (Position l1UserTx))))
        l1UserTx) /\
  SetID l1CoordinatorTx =
  Ok (set_TxID
        (TxIDPrefixL1CoordTx ::
         ethCrypto.Keccak256Hash
           (be_bytes 8 (to_uint64 3)
            ++ be_bytes 2 (to_uint16 (Position l1CoordinatorTx))))
        l1CoordinatorTx).
Proof.
  split; [|split; [|split; [|split]]].
  - apply (proj1 (SetID_fails_iff_nil l1UserTx)). reflexivity.
  - apply (proj1 (proj2 (SetID_fails_iff_nil l1CoordinatorTx))). reflexivity.
  - apply (proj1 (SetID_fails_iff_nil (set_UserOrigin true l1CoordinatorTx))).
    reflexivity.
  - apply (proj1 (proj2 (proj2 (proj2 (SetID_fails_iff_nil l1UserTx)))));
      reflexivity.
  - apply (proj2 (proj2 (proj2 (proj2 (SetID_fails_iff_nil l1CoordinatorTx)))));
      reflexivity.
Defined.

(** C6. The [TxID] that [SetID] computes depends on [UserOrigin], on
    [ToForgeL1TxsNum] (user tx) or [BatchNum] (coordinator tx) and on
    [Position] only: two txs that agree on these are given the same [TxID],
    or both fail with the same error, whatever their other fields. *)
Theorem SetID_TxID_pure (t1 t2 : L1Tx) :
  length (TxID t1) = TxIDLen -> length (TxID t2) = TxIDLen ->
  UserOrigin t1 = UserOrigin t2 ->
  (if UserOrigin t1 then ToForgeL1TxsNum t1 = ToForgeL1TxsNum t2
   else BatchNum t1 = BatchNum t2) ->
  Position t1 = Position t2 ->
  (exists a b, SetID t1 = Ok a /\ SetID t2 = Ok b /\ TxID a = TxID b) \/
  (exists e, SetID t1 = Err e /\ SetID t2 = Err e).
Proof.
  intros Hl1 Hl2 Hu Hn Hp.
  destruct (UserOrigin t1) eqn:Hu1; symmetry in Hu.
  - destruct (ToForgeL1TxsNum t1) as [n|] eqn:Hn1; symmetry in Hn.
    + left. eexists _, _.
      split; [apply (SetID_user t1 n); assumption|].
      split; [apply (SetID_user t2 n); assumption|].
      cbn [TxID set_TxID]. rewrite Hp. reflexivity.
    + right. eexists.
      split; [apply SetID_user_nil|apply SetID_user_nil]; assumption.
  - destruct (BatchNum t1) as [n|] eqn:Hn1; symmetry in Hn.
    + left. eexists _, _.
      split; [apply (SetID_coordinator t1 n); assumption|].
      split; [apply (SetID_coordinator t2 n); assumption|].
      cbn [TxID set_TxID]. rewrite Hp. reflexivity.
    + right. eexists.
      split; [apply SetID_coordinator_nil|apply SetID_coordinator_nil];
        assumption.
Qed.

Lemma SetID_TxID_pure_witness :
  (exists a b,
     SetID l1UserTx = Ok a /\
     SetID (set_Type TxTypeDeposit (set_Amount (Some 77)
              (set_FromEthAddr (repeat xff 20) (set_ToIdx 0
                 (set_FromIdx 4242 (set_TxID (repeat xff 33) l1UserTx))))))
       = Ok b /\
     TxID a = TxID b) \/
  (exists e,
     SetID l1UserTx = Err e /\
     SetID (set_Type TxTypeDeposit (set_Amount (Some 77)
              (set_FromEthAddr (repeat xff 20) (set_ToIdx 0
                 (set_FromIdx 4242 (set_TxID (repeat xff 33) l1UserTx))))))
       = Err e).
Proof.
  apply (SetID_TxID_pure l1UserTx
           (set_Type TxTypeDeposit (set_Amount (Some 77)
              (set_FromEthAddr (repeat xff 20) (set_ToIdx 0
                 (set_FromIdx 4242 (set_TxID (repeat xff 33) l1UserTx)))))));
    reflexivity.
Defined.

(** ** [L1UserTxFromBytes] *)

Lemma slice_in_range (b : list byte) (lo hi : nat) :
  (lo <= hi)%nat -> (hi <= length b)%nat ->
  slice b lo hi = Ok (sub b lo hi) /\
  length (sub b lo hi) = (hi - lo)%nat.
Proof.
  intros H1 H2. unfold slice.
  destruct (Nat.leb_spec lo hi); [|lia].
  destruct (Nat.leb_spec hi (length b)); [|lia].
  split; [reflexivity|].
  unfold sub. rewrite length_firstn, length_skipn. lia.
Qed.

Lemma slice_out_of_range (b : list byte) (lo hi : nat) :
  (length b < hi)%nat -> slice b lo hi = Panic.
Proof.
  intros H. unfold slice.
  destruct (Nat.leb_spec hi (length b)); [lia|].
  rewrite andb_false_r. reflexivity.
Qed.

Lemma BytesToAddress_20 (s : list byte) :
  length s = 20%nat -> BytesToAddress s = s.
Proof.
  intros H. unfold BytesToAddress. rewrite H.
  change (20 <? 20)%nat with false. cbv iota. rewrite H.
  change (20 - 20)%nat with 0%nat.
  change (firstn 0 (zeros 20)) with (@nil byte).
  change (skipn 0 (zeros 20)) with (zeros 20).
  cbn [app]. apply copy_same_length. rewrite H. reflexivity.
Qed.

Lemma Float40_BigInt_value (s : list byte) :
  Float40_BigInt (Float40FromBytes s) = Ok (float40_value s).
Proof.
  unfold Float40_BigInt, Float40FromBytes, float40_value. f_equal.
  change 0x07FFFFFFFF with (Z.ones 35). change 0x1F with (Z.ones 5).
  rewrite !Z.land_ones, Z.shiftr_div_pow2 by lia. reflexivity.
Qed.

Lemma L1UserTxFromBytes_decoded (b : list byte) :
  length b = RollupConstL1UserTotalBytes ->
  L1UserTxFromBytes b = Ok (decodedL1UserTx b).
Proof.
  intros Hl. unfold RollupConstL1UserTotalBytes in Hl.
  unfold L1UserTxFromBytes, RollupConstL1UserTotalBytes.
  rewrite Hl. change (negb (78 =? 78)%nat) with false. cbv iota.
  destruct (slice_in_range b 0 20) as [E1 L1]; [lia|lia|].
  destruct (slice_in_range b 20 52) as [E2 L2]; [lia|lia|].
  destruct (slice_in_range b 52 58) as [E3 L3]; [lia|lia|].
  destruct (slice_in_range b 58 63) as [E4 L4]; [lia|lia|].
  destruct (slice_in_range b 63 68) as [E5 L5]; [lia|lia|].
  destruct (slice_in_range b 72 78) as [E6 L6]; [lia|lia|].
  rewrite E1. cbn [obind]. rewrite BytesToAddress_20 by exact L1.
  rewrite E2. cbn [obind].
  rewrite E3. cbn [obind]. rewrite IdxFromBytes_be by exact L3. cbn [obind].
  rewrite E4. cbn [obind]. rewrite Float40_BigInt_value. cbn [obind].
  rewrite E5. cbn [obind]. rewrite Float40_BigInt_value. cbn [obind].
  rewrite E6. cbn [obind]. rewrite IdxFromBytes_be by exact L6. cbn [obind].
  cbn [set_ToIdx set_Amount set_DepositAmount set_FromIdx set_FromBJJ
       set_FromEthAddr set_UserOrigin zeroL1Tx
       TxID ToForgeL1TxsNum Position UserOrigin FromIdx EffectiveFromIdx
       FromEthAddr FromBJJ ToIdx Amount EffectiveAmount DepositAmount
       EffectiveDepositAmount EthBlockNum EthTxHash L1Fee Type_ BatchNum].
  rewrite copy_same_length; [reflexivity|].
  unfold SwapEndianness. rewrite length_rev, L2. reflexivity.
Qed.

Lemma L1UserTxFromBytes_length_error (b : list byte) :
  length b <> 78%nat ->
  L1UserTxFromBytes b = Err (ErrL1TxBytesLen 68 (length b)).
Proof.
  intros Hl. unfold L1UserTxFromBytes, RollupConstL1UserTotalBytes, Wrap.
  destruct (Nat.eqb_spec (length b) 78) as [E|_]; [contradiction|].
  reflexivity.
Qed.

(** C2. [L1UserTxFromBytes] accepts the buffers of 78 bytes and no other,
    returning the length error on every other length, and it reads
    [FromEthAddr] from bytes [0:20], [FromBJJ] from bytes [20:52] (in
    reversed order), [FromIdx] from bytes [52:58], [DepositAmount] as the
    Float40 of bytes [58:63], [Amount] as the Float40 of bytes [63:68] and
    [ToIdx] from bytes [72:78], the bytes [68:72] being left aside. *)
Theorem L1UserTxFromBytes_layout (b : list byte) :
  (length b <> 78%nat ->
   L1UserTxFromBytes b = Err (ErrL1TxBytesLen 68 (length b))) /\
  (length b = 78%nat ->
   exists tx, L1UserTxFromBytes b = Ok tx /\
     UserOrigin tx = true /\
     FromEthAddr tx = sub b 0 20 /\
     FromBJJ tx = SwapEndianness (sub b 20 52) /\
     FromIdx tx = be_value (sub b 52 58) /\
     DepositAmount tx = Some (float40_value (sub b 58 63)) /\
     Amount tx = Some (float40_value (sub b 63 68)) /\
     ToIdx tx = be_value (sub b 72 78)).
Proof.
  split.
  - apply L1UserTxFromBytes_length_error.
  - intros Hl. exists (decodedL1UserTx b).
    split; [apply L1UserTxFromBytes_decoded; exact Hl|].
    repeat split.
Qed.

Lemma L1UserTxFromBytes_layout_witness :
  exists tx, L1UserTxFromBytes l1UserTxBytes = Ok tx /\
    UserOrigin tx = true /\
    FromEthAddr tx = sub l1UserTxBytes 0 20 /\
    FromBJJ tx = SwapEndianness (sub l1UserTxBytes 20 52) /\
    FromIdx tx = be_value (sub l1UserTxBytes 52 58) /\
    DepositAmount tx = Some (float40_value (sub l1UserTxBytes 58 63)) /\
    Amount tx = Some (float40_value (sub l1UserTxBytes 63 68)) /\
    ToIdx tx = be_value (sub l1UserTxBytes 72 78).
Proof.
  apply (proj2 (L1UserTxFromBytes_layout l1UserTxBytes)). reflexivity.
Defined.

(** The fields of the tx that the 78 bytes of [l1UserTxBytes] decode to. *)
Example L1UserTxFromBytes_l1UserTxBytes :
  exists tx, L1UserTxFromBytes l1UserTxBytes = Ok tx /\
    FromEthAddr tx = repeat x11 20 /\
    FromBJJ tx = x23 :: repeat x22 31 /\
    FromIdx tx = 256 /\
    DepositAmount tx = Some (2 ^ 33 * 10 ^ 31) /\
    Amount tx = Some 5 /\
    ToIdx tx = 257.
Proof.
  eexists. split; [apply L1UserTxFromBytes_decoded; reflexivity|].
  vm_compute. repeat split.
Qed.

(** Decoded from the wire, the deposit [2^33 * 10^31] between two user
    accounts is typed [ForceTransfer]. *)
Example SetType_l1UserTxBytes :
  (tx <-- L1UserTxFromBytes l1UserTxBytes; tx' <-- SetType tx; Ok (Type_ tx'))
  = Ok TxTypeForceTransfer.
Proof.
  rewrite L1UserTxFromBytes_decoded by reflexivity. vm_compute. reflexivity.
Qed.

(** C3. On a buffer that passes the length check every slice expression of
    [L1UserTxFromBytes] is in range, the one for [ToIdx] at [72:78] included,
    and the call returns a tx or an error: it does not panic. *)
Theorem L1UserTxFromBytes_in_bounds (b : list byte) :
  length b = RollupConstL1UserTotalBytes ->
  (forall lo hi,
     In (lo, hi) [(0, 20); (20, 52); (52, 58); (58, 63); (63, 68); (72, 78)]%nat ->
     slice b lo hi = Ok (sub b lo hi) /\ length (sub b lo hi) = (hi - lo)%nat) /\
  ((exists tx, L1UserTxFromBytes b = Ok tx) \/
   (exists e, L1UserTxFromBytes b = Err e)) /\
  L1UserTxFromBytes b <> Panic.
Proof.
  intros Hl. split; [|split].
  - unfold RollupConstL1UserTotalBytes in Hl. intros lo hi Hin.
    cbn [In] in Hin.
    repeat (destruct Hin as [[= <- <-]|Hin];
            [apply slice_in_range; lia|]).
    contradiction.
  - left. exists (decodedL1UserTx b). apply L1UserTxFromBytes_decoded, Hl.
  - rewrite L1UserTxFromBytes_decoded by exact Hl. discriminate.
Qed.

Lemma L1UserTxFromBytes_in_bounds_witness :
  L1UserTxFromBytes l1UserTxBytes <> Panic.
Proof.
  apply (L1UserTxFromBytes_in_bounds l1UserTxBytes). reflexivity.
Defined.

(** Whatever the buffer, [L1UserTxFromBytes] does not panic. *)
Lemma L1UserTxFromBytes_total (b : list byte) :
  L1UserTxFromBytes b <> Panic.
Proof.
  destruct (Nat.eq_dec (length b) 78%nat) as [E|E].
  - rewrite L1UserTxFromBytes_decoded by exact E. discriminate.
  - rewrite L1UserTxFromBytes_length_error by exact E. discriminate.
Qed.

(** The window [72:78] lies outside any buffer shorter than 78 bytes, such as
    one of the 68 bytes that the error message of the length check names. *)
Lemma ToIdx_window_needs_78_bytes (b : list byte) :
  (length b < 78)%nat -> slice b 72 78 = Panic.
Proof. apply slice_out_of_range. Qed.

(** ** [L1CoordinatorTxFromBytes] *)

Section L1CoordinatorProperties.

Variable PublicKey : Type.
Variable RollupConstEthAddressInternalOnly : list byte.
Variable HashToSign : list byte -> Z -> list byte -> outcome (list byte).
Variable Ecrecover : list byte -> list byte -> outcome (list byte).
Variable UnmarshalPubkey : list byte -> outcome PublicKey.
Variable PubkeyToAddress : PublicKey -> list byte.

(** C10. A tx that [L1CoordinatorTxFromBytes] returns has
    [UserOrigin = false], [Amount = 0] and [DepositAmount = 0]; its
    [FromEthAddr] is the address recovered from the signature
    [r ++ s ++ (v - 27)] over the account-creation hash when the leading
    byte [v] is positive, and [RollupConstEthAddressInternalOnly] when [v]
    is zero. *)
Theorem L1CoordinatorTxFromBytes_postcondition
    (b : list byte) (chainID : option Z) (tokamakAddress : list byte)
    (tx : L1Tx) :
  L1CoordinatorTxFromBytes PublicKey RollupConstEthAddressInternalOnly
    HashToSign Ecrecover UnmarshalPubkey PubkeyToAddress
    b chainID tokamakAddress = Ok tx ->
  UserOrigin tx = false /\
  Amount tx = Some 0 /\
  DepositAmount tx = Some 0 /\
  FromBJJ tx = SwapEndianness (sub b 65 97) /\
  exists v, b !! 0%nat = Some v /\
    (Z_of_byte v > 0 ->
     exists c h pubKeyBytes pubKey,
       chainID = Some c /\
       HashToSign (FromBJJ tx) (to_uint16 (BigInt_Uint64 c)) tokamakAddress
         = Ok h /\
       Ecrecover h (sub b 33 65 ++ sub b 1 33
                    ++ [byte_of_Z (Z_of_byte v - 27)]) = Ok pubKeyBytes /\
       UnmarshalPubkey pubKeyBytes = Ok pubKey /\
       FromEthAddr tx = PubkeyToAddress pubKey) /\
    (Z_of_byte v = 0 -> FromEthAddr tx = RollupConstEthAddressInternalOnly).
Proof.
  unfold L1CoordinatorTxFromBytes, RollupConstL1CoordinatorTotalBytes.
  destruct (Nat.eqb_spec (length b) 101) as [Hl|Hl]; [|discriminate].
  cbn [negb]. unfold index.
  destruct (b !! 0%nat) as [v|] eqn:Hv; [|discriminate].
  cbn [obind].
  destruct (slice_in_range b 1 33) as [E1 L1]; [lia|lia|].
  destruct (slice_in_range b 33 65) as [E2 L2]; [lia|lia|].
  destruct (slice_in_range b 65 97) as [E3 L3]; [lia|lia|].
  rewrite E1, E2, E3. cbn [obind].
  assert (Hbjj : copy (FromBJJ (set_UserOrigin false zeroL1Tx))
                   (SwapEndianness (sub b 65 97))
                 = SwapEndianness (sub b 65 97)).
  { apply copy_same_length. unfold SwapEndianness.
    rewrite length_rev, L3. reflexivity. }
  rewrite Hbjj. clear Hbjj.
  pose proof (Z_of_byte_range v) as Hr.
  destruct (Z.gtb_spec (Z_of_byte v) 0) as [Hpos|Hzero].
  - intros H.
    destruct chainID as [c|]; [|discriminate]. cbn [obind] in H.
    apply obind_Ok_inv in H. destruct H as (h & Hh & H).
    apply obind_Ok_inv in H. destruct H as (pkb & Hpkb & H).
    apply obind_Ok_inv in H. destruct H as (pk & Hpk & H).
    injection H as <-.
    repeat (split; [reflexivity|]).
    exists v. split; [reflexivity|]. split; [|lia].
    intros _. exists c, h, pkb, pk.
    cbn [app] in Hpkb. rewrite <- app_assoc in Hpkb.
    split; [reflexivity|]. split; [exact Hh|]. split; [exact Hpkb|].
    split; [exact Hpk|]. reflexivity.
  - intros [= <-].
    repeat (split; [reflexivity|]).
    exists v. split; [reflexivity|]. split; [lia|].
    intros _. reflexivity.
Qed.

End L1CoordinatorProperties.

Lemma L1CoordinatorTxFromBytes_postcondition_witness :
  exists tx,
    L1CoordinatorTxFromBytes (list byte) (repeat xff 20)
      (fun _ _ _ => Err ErrHashToSign) (fun _ _ => Err ErrEcrecover)
      (fun _ => Err ErrUnmarshalPubkey) (fun pk => pk)
      l1CoordinatorTxBytes (Some 1) (zeros 20) = Ok tx /\
    UserOrigin tx = false /\ Amount tx = Some 0 /\ DepositAmount tx = Some 0 /\
    FromEthAddr tx = repeat xff 20.
Proof.
  eexists. split; [vm_compute; reflexivity|].
  destruct (L1CoordinatorTxFromBytes_postcondition (list byte) (repeat xff 20)
              (fun _ _ _ => Err ErrHashToSign) (fun _ _ => Err ErrEcrecover)
              (fun _ => Err ErrUnmarshalPubkey) (fun pk => pk)
              l1CoordinatorTxBytes (Some 1) (zeros 20) _ eq_refl)
    as (H1 & H2 & H3 & _ & v & Hv & _ & Hz).
  repeat (split; [assumption|]).
  injection Hv as <-. apply Hz. reflexivity.
Defined.

(** ** The account store *)

(** C9. [CreateAccount] at an index that holds an account fails with
    [ErrAccountAlreadyExists] and leaves the store as it was, the account
    found at the index before being found there after; at an index that
    holds none it succeeds and the account is found there after. *)
Theorem CreateAccount_AccountAlreadyExists
    (sdb : statedb.StateDB) (idx : Z) (account : statedb.Account) :
  (forall a, statedb.GetAccount sdb idx = inl a ->
     statedb.CreateAccount sdb idx account
       = (sdb, Some statedb.ErrAccountAlreadyExists) /\
     statedb.GetAccount (fst (statedb.CreateAccount sdb idx account)) idx
       = inl a) /\
  (statedb.GetAccount sdb idx = inr statedb.ErrNotFound ->
     snd (statedb.CreateAccount sdb idx account) = None /\
     statedb.GetAccount (fst (statedb.CreateAccount sdb idx account)) idx
       = inl account).
Proof.
  unfold statedb.GetAccount, statedb.CreateAccount.
  destruct (statedb.db sdb !! idx) as [a0|] eqn:E; split.
  - intros a [= <-]. cbn [fst]. rewrite E. split; reflexivity.
  - discriminate.
  - discriminate.
  - intros _. cbn [fst snd statedb.db]. rewrite lookup_insert_eq.
    split; reflexivity.
Qed.

Lemma CreateAccount_AccountAlreadyExists_witness :
  statedb.CreateAccount
    (fst (statedb.CreateAccount statedb.NewStateDB 256 (statedb.newAccount 0)))
    256 (statedb.newAccount 1)
  = (fst (statedb.CreateAccount statedb.NewStateDB 256 (statedb.newAccount 0)),
     Some statedb.ErrAccountAlreadyExists) /\
  statedb.GetAccount
    (fst (statedb.CreateAccount
            (fst (statedb.CreateAccount statedb.NewStateDB 256
                    (statedb.newAccount 0)))
            256 (statedb.newAccount 1))) 256
  = inl (statedb.newAccount 0).
Proof.
  apply (proj1 (CreateAccount_AccountAlreadyExists
                  (fst (statedb.CreateAccount statedb.NewStateDB 256
                          (statedb.newAccount 0)))
                  256 (statedb.newAccount 1))).
  vm_compute. reflexivity.
Defined.

(** * Further properties *)

(** ** The index codec *)

Lemma Idx_Bytes_roundtrip_witness :
  (b <-- Idx_Bytes 281474976710655; IdxFromBytes b) = Ok 281474976710655.
Proof. apply (Idx_Bytes_roundtrip 281474976710655). lia. Defined.

Lemma byte_of_Z_mod (z : Z) : byte_of_Z (z mod 256) = byte_of_Z z.
Proof. unfold byte_of_Z. rewrite Z.mod_mod by lia. reflexivity. Qed.

Lemma be_value_snoc (b : list byte) (x : byte) :
  be_value (b ++ [x]) = be_value b * 256 + Z_of_byte x.
Proof.
  rewrite be_value_app. cbn [length]. change (256 ^ Z.of_nat 1) with 256.
  change (be_value [x]) with (0 * 256 + Z_of_byte x). lia.
Qed.

Lemma be_bytes_be_value (b : list byte) :
  be_bytes (length b) (be_value b) = b.
Proof.
  induction b as [|x b IH] using rev_ind; [reflexivity|].
  rewrite length_app, Nat.add_1_r, be_value_snoc. cbn [be_bytes length].
  pose proof (Z_of_byte_range x) as Hx.
  assert (Hd : (be_value b * 256 + Z_of_byte x) / 256 = be_value b).
  { rewrite Z.div_add_l by lia. rewrite Z.div_small by lia. lia. }
  assert (Hm : byte_of_Z (be_value b * 256 + Z_of_byte x) = x).
  { rewrite <- byte_of_Z_mod.
    rewrite Z.add_comm, Z.mod_add by lia.
    rewrite Z.mod_small by lia. apply byte_of_Z_of_byte. }
  rewrite Hd, Hm, IH. reflexivity.
Qed.

(** X1. [IdxFromBytes] returns its length error on every slice that does not
    have six bytes; on six bytes it returns their big-endian value, which
    is at most [maxIdxValue]: it returns no index that [Idx.Bytes] refuses. *)
Theorem IdxFromBytes_six_bytes (b : list byte) :
  (length b <> 6%nat ->
   IdxFromBytes b = Err (ErrIdxBytesLen (length b) 6)) /\
  (length b = 6%nat ->
   IdxFromBytes b = Ok (be_value b) /\ 0 <= be_value b <= maxIdxValue).
Proof.
  split.
  - apply IdxFromBytes_length.
  - intros Hl. split; [apply IdxFromBytes_be, Hl|].
    pose proof (be_value_bounds b) as Hb. rewrite Hl in Hb.
    change (256 ^ Z.of_nat 6) with 281474976710656 in Hb.
    unfold maxIdxValue. lia.
Qed.

Lemma IdxFromBytes_six_bytes_witness :
  IdxFromBytes [x01; x02] = Err (ErrIdxBytesLen 2 6) /\
  IdxFromBytes [xff; xff; xff; xff; xff; xff] = Ok maxIdxValue.
Proof.
  split.
  - apply (proj1 (IdxFromBytes_six_bytes [x01; x02])). discriminate.
  - apply (proj2 (IdxFromBytes_six_bytes [xff; xff; xff; xff; xff; xff])).
    reflexivity.
Defined.

Lemma Idx_Bytes_be_value (s : list byte) :
  length s = 6%nat -> Idx_Bytes (be_value s) = Ok s.
Proof.
  intros Hl. pose proof (be_value_bounds s) as Hb. rewrite Hl in Hb.
  change (256 ^ Z.of_nat 6) with 281474976710656 in Hb.
  rewrite Idx_Bytes_in_range by lia.
  rewrite <- Hl at 1. rewrite be_bytes_be_value. reflexivity.
Qed.

(** X3. Encoding what [IdxFromBytes] decodes gives the bytes back: if
    [IdxFromBytes b] returns [idx], then [Idx.Bytes] of [idx] succeeds and
    returns [b]. *)
Theorem IdxFromBytes_roundtrip (b : list byte) (idx : Z) :
  IdxFromBytes b = Ok idx -> Idx_Bytes idx = Ok b.
Proof.
  intros H.
  destruct (Nat.eq_dec (length b) 6%nat) as [Hl|Hl].
  - rewrite IdxFromBytes_be in H by exact Hl. injection H as <-.
    apply Idx_Bytes_be_value, Hl.
  - rewrite IdxFromBytes_length in H by exact Hl. discriminate.
Qed.

Lemma IdxFromBytes_roundtrip_witness :
  Idx_Bytes 1103823438081 = Ok [x01; x01; x01; x01; x01; x01].
Proof.
  apply (IdxFromBytes_roundtrip [x01; x01; x01; x01; x01; x01]). reflexivity.
Defined.

(** ** [SetType], [SetID] and [NewL1Tx] *)

(** X4. Between two user accounts (both indexes at least 256) [SetType]
    decides on the low 64 bits of the deposit alone: the type is
    [ForceTransfer] when [DepositAmount] is a multiple of [2^64], zero
    included, and [DepositTransfer] otherwise, in particular for every
    deposit from 1 to [2^64 - 1]. *)
Theorem SetType_user_to_user (tx : L1Tx) (d : Z) :
  FromIdx tx >= 256 -> ToIdx tx >= 256 -> DepositAmount tx = Some d ->
  (d mod 2 ^ 64 = 0 -> SetType tx = Ok (set_Type TxTypeForceTransfer tx)) /\
  (d mod 2 ^ 64 <> 0 -> SetType tx = Ok (set_Type TxTypeDepositTransfer tx)) /\
  (0 < d < 2 ^ 64 -> SetType tx = Ok (set_Type TxTypeDepositTransfer tx)).
Proof.
  intros Hf Ht Hd.
  destruct (SetType_rows tx) as (_ & _ & _ & _ & Hz & Hnz).
  split; [|split].
  - intros H. exact (Hz d Hf Ht Hd H).
  - intros H. exact (Hnz d Hf Ht Hd H).
  - intros H. apply (Hnz d Hf Ht Hd). rewrite Z.mod_small by lia. lia.
Qed.

Lemma SetType_user_to_user_witness :
  SetType (set_DepositAmount (Some (3 * 2 ^ 64))
             (set_ToIdx 300 (set_FromIdx 256 zeroL1Tx)))
  = Ok (set_Type TxTypeForceTransfer
          (set_DepositAmount (Some (3 * 2 ^ 64))
             (set_ToIdx 300 (set_FromIdx 256 zeroL1Tx)))) /\
  SetType (set_DepositAmount (Some 7)
             (set_ToIdx 300 (set_FromIdx 256 zeroL1Tx)))
  = Ok (set_Type TxTypeDepositTransfer
          (set_DepositAmount (Some 7)
             (set_ToIdx 300 (set_FromIdx 256 zeroL1Tx)))).
Proof.
  split.
  - apply (SetType_user_to_user
             (set_DepositAmount (Some (3 * 2 ^ 64))
                (set_ToIdx 300 (set_FromIdx 256 zeroL1Tx))) (3 * 2 ^ 64));
      try reflexivity; cbn; lia.
  - apply (SetType_user_to_user
             (set_DepositAmount (Some 7)
                (set_ToIdx 300 (set_FromIdx 256 zeroL1Tx))) 7);
      try reflexivity; cbn; lia.
Defined.

(** [SetType] changes [Type] only, and a tx it returns is one it returns
    again. *)
Lemma SetType_Ok_inv (tx a : L1Tx) :
  SetType tx = Ok a -> a = set_Type (Type_ a) tx /\ SetType a = Ok a.
Proof.
  unfold SetType.
  destruct (FromIdx tx =? 0) eqn:E1.
  - destruct (ToIdx tx =? 0) eqn:E2.
    + intros [= <-]. cbn. rewrite E1, E2. split; reflexivity.
    + destruct (ToIdx tx >=? IdxUserThreshold) eqn:E3; [|discriminate].
      intros [= <-]. cbn. rewrite E1, E2, E3. split; reflexivity.
  - destruct (FromIdx tx >=? IdxUserThreshold) eqn:E4; [|discriminate].
    destruct (ToIdx tx =? 0) eqn:E2.
    + intros [= <-]. cbn. rewrite E1, E4, E2. split; reflexivity.
    + destruct (ToIdx tx =? 1) eqn:E5.
      * intros [= <-]. cbn. rewrite E1, E4, E2, E5. split; reflexivity.
      * destruct (ToIdx tx >=? IdxUserThreshold) eqn:E3; [|discriminate].
        destruct (DepositAmount tx) as [d|] eqn:E6; [|discriminate].
        destruct (Int64 d =? 0) eqn:E7;
          intros [= <-]; cbn; rewrite E1, E4, E2, E5, E3, E6, E7;
          split; reflexivity.
Qed.

(** [SetType] reads no field that [SetID] writes, and conversely. *)
Lemma SetType_set_TxID (id : list byte) (tx : L1Tx) :
  SetType (set_TxID id tx) = (a <-- SetType tx; Ok (set_TxID id a)).
Proof.
  unfold SetType. cbn [FromIdx ToIdx DepositAmount set_TxID].
  repeat match goal with
    | |- context [if ?c then _ else _] => destruct c
    | |- context [match ?o with Some _ => _ | None => _ end] => destruct o
    end; reflexivity.
Qed.

Lemma SetID_set_Type (ty : TxType) (tx : L1Tx) :
  SetID (set_Type ty tx) = (b <-- SetID tx; Ok (set_Type ty b)).
Proof.
  unfold SetID. cbn [UserOrigin ToForgeL1TxsNum BatchNum set_Type].
  destruct (UserOrigin tx).
  - destruct (ToForgeL1TxsNum tx); reflexivity.
  - destruct (BatchNum tx); reflexivity.
Qed.

Lemma SetID_Ok_inv (tx b : L1Tx) :
  SetID tx = Ok b -> b = set_TxID (TxID b) tx.
Proof.
  unfold SetID.
  destruct (UserOrigin tx).
  - destruct (ToForgeL1TxsNum tx); [|discriminate].
    cbn [obind]. intros [= <-]. reflexivity.
  - destruct (BatchNum tx); [|discriminate].
    cbn [obind]. intros [= <-]. reflexivity.
Qed.

(** X6. [SetType] and [SetID] commute: run on the same tx in either order,
    they return the same tx, and one order succeeds exactly when the other
    does. *)
Theorem SetType_SetID_commute (tx c : L1Tx) :
  (a <-- SetType tx; SetID a) = Ok c <-> (b <-- SetID tx; SetType b) = Ok c.
Proof.
  split; intros H.
  - apply obind_Ok_inv in H. destruct H as (a & Ha & Hc).
    destruct (SetType_Ok_inv tx a Ha) as [Ea _].
    rewrite Ea, SetID_set_Type in Hc.
    apply obind_Ok_inv in Hc. destruct Hc as (b & Hb & [= <-]).
    rewrite Hb. cbn [obind].
    rewrite (SetID_Ok_inv tx b Hb), SetType_set_TxID, Ha. cbn [obind].
    rewrite Ea at 1. reflexivity.
  - apply obind_Ok_inv in H. destruct H as (b & Hb & Hc).
    pose proof (SetID_Ok_inv tx b Hb) as Eb.
    rewrite Eb, SetType_set_TxID in Hc.
    apply obind_Ok_inv in Hc. destruct Hc as (a & Ha & [= <-]).
    rewrite Ha. cbn [obind].
    destruct (SetType_Ok_inv tx a Ha) as [Ea _].
    rewrite Ea, SetID_set_Type, Hb. cbn [obind].
    rewrite Eb at 1. reflexivity.
Qed.

Lemma SetType_SetID_commute_witness :
  (b <-- SetID l1UserTx; SetType b)
  = Ok (set_TxID
          (x00 :: ethCrypto.Keccak256Hash
                    (be_bytes 8 123456 ++ be_bytes 2 71))
          (set_Type TxTypeDepositTransfer l1UserTx)).
Proof.
  apply (SetType_SetID_commute l1UserTx). vm_compute. reflexivity.
Defined.

Lemma SetID_fixed (tx b : L1Tx) :
  length (TxID tx) = TxIDLen -> SetID tx = Ok b ->
  SetID b = Ok b /\ length (TxID b) = TxIDLen.
Proof.
  intros Hl Hb.
  destruct (UserOrigin tx) eqn:Hu.
  - destruct (ToForgeL1TxsNum tx) as [n|] eqn:Hn.
    + rewrite (SetID_user tx n Hl Hu Hn) in Hb. injection Hb as <-.
      assert (Hl' : length (TxID (set_TxID
                (TxIDPrefixL1UserTx ::
                 ethCrypto.Keccak256Hash
                   (be_bytes 8 (to_uint64 n)
                    ++ be_bytes 2 (to_uint16 (Position tx)))) tx)) = TxIDLen).
      { cbn [TxID set_TxID length]. rewrite Keccak256Hash_length. reflexivity. }
      split; [|exact Hl'].
      exact (SetID_user _ n Hl' Hu Hn).
    + rewrite (SetID_user_nil tx Hu Hn) in Hb. discriminate.
  - destruct (BatchNum tx) as [n|] eqn:Hn.
    + rewrite (SetID_coordinator tx n Hl Hu Hn) in Hb. injection Hb as <-.
      assert (Hl' : length (TxID (set_TxID
                (TxIDPrefixL1CoordTx ::
                 ethCrypto.Keccak256Hash
                   (be_bytes 8 (to_uint64 n)
                    ++ be_bytes 2 (to_uint16 (Position tx)))) tx)) = TxIDLen).
      { cbn [TxID set_TxID length]. rewrite Keccak256Hash_length. reflexivity. }
      split; [|exact Hl'].
      exact (SetID_coordinator _ n Hl' Hu Hn).
    + rewrite (SetID_coordinator_nil tx Hu Hn) in Hb. discriminate.
Qed.

(** X5. [SetID] is idempotent: on the tx that a successful run returns, a
    second run succeeds and returns that tx unchanged, whatever [TxID] the tx
    had before the first run. *)
Theorem SetID_idempotent (tx b : L1Tx) :
  length (TxID tx) = TxIDLen -> SetID tx = Ok b -> SetID b = Ok b.
Proof. intros Hl Hb. exact (proj1 (SetID_fixed tx b Hl Hb)). Qed.

Lemma SetID_idempotent_witness :
  SetID (set_TxID
           (x01 :: ethCrypto.Keccak256Hash (be_bytes 8 3 ++ be_bytes 2 0))
           l1CoordinatorTx)
  = Ok (set_TxID
          (x01 :: ethCrypto.Keccak256Hash (be_bytes 8 3 ++ be_bytes 2 0))
          l1CoordinatorTx).
Proof.
  apply (SetID_idempotent l1CoordinatorTx); [reflexivity|].
  apply (SetID_coordinator l1CoordinatorTx 3); reflexivity.
Defined.

(** X7. [SetID] keeps the low 16 bits of [Position] only: two txs whose
    positions differ by a multiple of 65536, and that are equal otherwise,
    are given the same [TxID]. *)
Theorem SetID_Position_mod_65536 (tx : L1Tx) (k : Z) :
  SetID (set_Position (Position tx + k * 65536) tx) =
  (b <-- SetID tx; Ok (set_Position (Position tx + k * 65536) b)).
Proof.
  unfold SetID.
  cbn [UserOrigin ToForgeL1TxsNum BatchNum TxID Position set_Position].
  assert (Hp : to_uint16 (Position tx + k * 65536) = to_uint16 (Position tx)).
  { unfold to_uint16. change (2 ^ 16) with 65536. apply Z.mod_add. lia. }
  destruct (UserOrigin tx).
  - destruct (ToForgeL1TxsNum tx); [|reflexivity].
    cbn [obind TxID Position set_TxID set_Position]. rewrite Hp. reflexivity.
  - destruct (BatchNum tx); [|reflexivity].
    cbn [obind TxID Position set_TxID set_Position]. rewrite Hp. reflexivity.
Qed.

(** X8. The identifiers of the two origins are disjoint: the [TxID] that
    [SetID] gives a user tx differs, in its first byte, from the one it gives
    a coordinator tx. *)
Theorem SetID_origins_disjoint (t1 t2 a b : L1Tx) :
  length (TxID t1) = TxIDLen -> length (TxID t2) = TxIDLen ->
  UserOrigin t1 = true -> UserOrigin t2 = false ->
  SetID t1 = Ok a -> SetID t2 = Ok b ->
  TxID a !! 0%nat = Some TxIDPrefixL1UserTx /\
  TxID b !! 0%nat = Some TxIDPrefixL1CoordTx /\
  TxID a <> TxID b.
Proof.
  intros Hl1 Hl2 Hu1 Hu2 Ha Hb.
  destruct (ToForgeL1TxsNum t1) as [n|] eqn:Hn1;
    [|rewrite (SetID_user_nil t1 Hu1 Hn1) in Ha; discriminate].
  destruct (BatchNum t2) as [m|] eqn:Hn2;
    [|rewrite (SetID_coordinator_nil t2 Hu2 Hn2) in Hb; discriminate].
  rewrite (SetID_user t1 n Hl1 Hu1 Hn1) in Ha. injection Ha as <-.
  rewrite (SetID_coordinator t2 m Hl2 Hu2 Hn2) in Hb. injection Hb as <-.
  cbn [TxID set_TxID].
  split; [reflexivity|]. split; [reflexivity|]. discriminate.
Qed.

Lemma SetID_origins_disjoint_witness :
  TxID (set_TxID
          (x00 :: ethCrypto.Keccak256Hash
                    (be_bytes 8 123456 ++ be_bytes 2 71)) l1UserTx)
    !! 0%nat = Some TxIDPrefixL1UserTx /\
  TxID (set_TxID
          (x01 :: ethCrypto.Keccak256Hash (be_bytes 8 3 ++ be_bytes 2 0))
          l1CoordinatorTx)
    !! 0%nat = Some TxIDPrefixL1CoordTx /\
  TxID (set_TxID
          (x00 :: ethCrypto.Keccak256Hash
                    (be_bytes 8 123456 ++ be_bytes 2 71)) l1UserTx)
  <> TxID (set_TxID
             (x01 :: ethCrypto.Keccak256Hash (be_bytes 8 3 ++ be_bytes 2 0))
             l1CoordinatorTx).
Proof.
  apply (SetID_origins_disjoint l1UserTx l1CoordinatorTx); reflexivity.
Defined.

(** *** [NewL1Tx] *)

Lemma bytes_eqb_refl (a : list byte) : bytes_eqb a a = true.
Proof.
  induction a as [|x a IH]; [reflexivity|].
  cbn [bytes_eqb]. rewrite IH, (Byte.byte_dec_lb eq_refl). reflexivity.
Qed.

Lemma bytes_eqb_eq (a b : list byte) : bytes_eqb a b = true <-> a = b.
Proof.
  split; [|intros ->; apply bytes_eqb_refl].
  revert b. induction a as [|x a IH]; intros [|y b]; cbn [bytes_eqb];
    try discriminate; [reflexivity|].
  intros H. apply andb_true_iff in H. destruct H as [Hx Hab].
  apply Byte.byte_dec_bl in Hx. rewrite Hx, (IH b Hab). reflexivity.
Qed.

(** X9. A tx that [NewL1Tx] returns without error is a fixed point: given
    again to [NewL1Tx], with the [Type] and the [TxID] it now carries, it is
    returned unchanged and without error. *)
Theorem NewL1Tx_fixed_point (tx tx' : L1Tx) :
  length (TxID tx) = TxIDLen ->
  NewL1Tx tx = Returns tx' true None ->
  NewL1Tx tx' = Returns tx' true None.
Proof.
  intros Hl. unfold NewL1Tx at 1.
  destruct (SetType tx) as [a| |] eqn:Ha; try discriminate.
  destruct (negb (Type_ tx =? "")%string && negb (Type_ tx =? Type_ a)%string);
    [discriminate|].
  destruct (SetID a) as [b| |] eqn:Hb; try discriminate.
  destruct (negb (bytes_eqb (TxID a) (zeros TxIDLen))
            && negb (bytes_eqb (TxID a) (TxID b))); [discriminate|].
  intros [= <-].
  destruct (SetType_Ok_inv tx a Ha) as [Ea Haa].
  assert (Hla : length (TxID a) = TxIDLen) by (rewrite Ea; exact Hl).
  destruct (SetID_fixed a b Hla Hb) as [Hbb _].
  pose proof (SetID_Ok_inv a b Hb) as Eb.
  assert (Hsb : SetType b = Ok b).
  { rewrite Eb at 1. rewrite SetType_set_TxID, Haa. cbn [obind].
    rewrite <- Eb. reflexivity. }
  unfold NewL1Tx. rewrite Hsb.
  rewrite String.eqb_refl. cbn [negb]. rewrite andb_false_r.
  rewrite Hbb, bytes_eqb_refl. cbn [negb]. rewrite andb_false_r.
  reflexivity.
Qed.

Lemma NewL1Tx_fixed_point_witness :
  NewL1Tx (set_TxID
             (x00 :: ethCrypto.Keccak256Hash
                       (be_bytes 8 123456 ++ be_bytes 2 71))
             (set_Type TxTypeDepositTransfer l1UserTx))
  = Returns (set_TxID
               (x00 :: ethCrypto.Keccak256Hash
                         (be_bytes 8 123456 ++ be_bytes 2 71))
               (set_Type TxTypeDepositTransfer l1UserTx)) true None.
Proof.
  apply (NewL1Tx_fixed_point l1UserTx); [reflexivity|].
  vm_compute. reflexivity.
Defined.

(** X10. When the caller supplies a [Type] that is not the one [SetType]
    infers, [NewL1Tx] returns a nil tx and an error, and the tx of the
    caller has by then been overwritten with the inferred type. *)
Theorem NewL1Tx_type_mismatch (tx a : L1Tx) :
  Type_ tx <> EmptyString -> SetType tx = Ok a -> Type_ a <> Type_ tx ->
  NewL1Tx tx = Returns a false (Some (ErrTypeMismatch (Type_ a) (Type_ tx))) /\
  a = set_Type (Type_ a) tx.
Proof.
  intros He Ha Hne. unfold NewL1Tx. rewrite Ha.
  destruct (String.eqb_spec (Type_ tx) EmptyString) as [E|_]; [contradiction|].
  destruct (String.eqb_spec (Type_ tx) (Type_ a)) as [E|_];
    [symmetry in E; contradiction|].
  split; [reflexivity|]. apply (SetType_Ok_inv tx a Ha).
Qed.

Lemma NewL1Tx_type_mismatch_witness :
  NewL1Tx (set_Type TxTypeDeposit l1UserTx)
  = Returns (set_Type TxTypeDepositTransfer l1UserTx) false
      (Some (ErrTypeMismatch TxTypeDepositTransfer TxTypeDeposit)).
Proof.
  apply (NewL1Tx_type_mismatch (set_Type TxTypeDeposit l1UserTx)
           (set_Type TxTypeDepositTransfer l1UserTx));
    [discriminate | reflexivity | discriminate].
Defined.

(** X11. When the caller supplies a [TxID] that is neither zero nor the one
    [SetID] derives, [NewL1Tx] returns an error together with the tx, not
    nil as for a wrong [Type]; the tx then carries the derived [TxID]. *)
Theorem NewL1Tx_TxID_mismatch (tx a b : L1Tx) :
  SetType tx = Ok a ->
  Type_ tx = EmptyString \/ Type_ tx = Type_ a ->
  SetID a = Ok b ->
  TxID tx <> zeros TxIDLen -> TxID tx <> TxID b ->
  NewL1Tx tx = Returns b true (Some (ErrTxIDMismatch (TxID b) (TxID tx))).
Proof.
  intros Ha Hty Hb Hz Hne. unfold NewL1Tx. rewrite Ha.
  assert (Hc : negb (Type_ tx =? "")%string
               && negb (Type_ tx =? Type_ a)%string = false).
  { destruct Hty as [E|E]; rewrite E.
    - reflexivity.
    - rewrite String.eqb_refl. apply andb_false_r. }
  rewrite Hc, Hb.
  destruct (SetType_Ok_inv tx a Ha) as [Ea _].
  assert (Hid : TxID a = TxID tx) by (rewrite Ea; reflexivity).
  rewrite Hid.
  destruct (bytes_eqb (TxID tx) (zeros TxIDLen)) eqn:E1;
    [apply bytes_eqb_eq in E1; contradiction|].
  destruct (bytes_eqb (TxID tx) (TxID b)) eqn:E2;
    [apply bytes_eqb_eq in E2; contradiction|].
  reflexivity.
Qed.

Lemma NewL1Tx_TxID_mismatch_witness :
  NewL1Tx (set_TxID (repeat xff 33) l1UserTx)
  = Returns
      (set_TxID
         (x00 :: ethCrypto.Keccak256Hash (be_bytes 8 123456 ++ be_bytes 2 71))
         (set_Type TxTypeDepositTransfer l1UserTx))
      true
      (Some (ErrTxIDMismatch
               (x00 :: ethCrypto.Keccak256Hash
                         (be_bytes 8 123456 ++ be_bytes 2 71))
               (repeat xff 33))).
Proof.
  apply (NewL1Tx_TxID_mismatch (set_TxID (repeat xff 33) l1UserTx)
           (set_Type TxTypeDepositTransfer (set_TxID (repeat xff 33) l1UserTx))
           (set_TxID
              (x00 :: ethCrypto.Keccak256Hash
                        (be_bytes 8 123456 ++ be_bytes 2 71))
              (set_Type TxTypeDepositTransfer l1UserTx))).
  - reflexivity.
  - left. reflexivity.
  - apply (SetID_user
             (set_Type TxTypeDepositTransfer
                (set_TxID (repeat xff 33) l1UserTx)) 123456); reflexivity.
  - discriminate.
  - vm_compute. discriminate.
Defined.

(** ** More on [L1UserTxFromBytes] *)

Lemma sub_lookup (b : list byte) (lo hi i : nat) :
  sub b lo hi !! i = if decide (i < hi - lo)%nat then b !! (lo + i)%nat else None.
Proof.
  unfold sub. destruct (decide (i < hi - lo)%nat) as [H|H].
  - rewrite lookup_take_lt by exact H. apply lookup_drop.
  - apply lookup_take_ge. lia.
Qed.

Lemma sub_ext (b b' : list byte) (lo hi : nat) :
  (forall j, (lo <= j < hi)%nat -> b !! j = b' !! j) ->
  sub b lo hi = sub b' lo hi.
Proof.
  intros H. apply list_eq. intros i. rewrite !sub_lookup.
  destruct (decide (i < hi - lo)%nat); [|reflexivity].
  apply H. lia.
Qed.

Lemma splice_lookup_low (b r : list byte) (lo hi j : nat) :
  (lo <= length b)%nat -> (j < lo)%nat -> splice b lo hi r !! j = b !! j.
Proof.
  intros Hlo Hj. unfold splice.
  rewrite lookup_app_l by (rewrite length_take; lia).
  apply lookup_take_lt, Hj.
Qed.

Lemma splice_lookup_high (b r : list byte) (lo hi j : nat) :
  (lo <= hi)%nat -> (hi <= length b)%nat -> length r = (hi - lo)%nat ->
  (hi <= j)%nat -> splice b lo hi r !! j = b !! j.
Proof.
  intros Hlh Hhi Hr Hj. unfold splice.
  rewrite lookup_app_r by (rewrite length_take; lia).
  rewrite lookup_app_r by (rewrite length_take; lia).
  rewrite lookup_drop, length_take. f_equal. lia.
Qed.

Lemma splice_length (b r : list byte) (lo hi : nat) :
  (lo <= hi)%nat -> (hi <= length b)%nat -> length r = (hi - lo)%nat ->
  length (splice b lo hi r) = length b.
Proof.
  intros Hlh Hhi Hr. unfold splice.
  rewrite !length_app, length_take, length_drop. lia.
Qed.

(** X12. [L1UserTxFromBytes] does not read the four bytes [68:72]: two
    78-byte buffers that differ in these bytes only decode to the same tx. *)
Theorem L1UserTxFromBytes_reserved_bytes (b r : list byte) :
  length b = 78%nat -> length r = 4%nat ->
  L1UserTxFromBytes (splice b 68 72 r) = L1UserTxFromBytes b.
Proof.
  intros Hb Hr.
  assert (Hs : length (splice b 68 72 r) = 78%nat)
    by (rewrite splice_length; lia).
  rewrite !L1UserTxFromBytes_decoded by assumption.
  f_equal. unfold decodedL1UserTx.
  assert (Hlow : forall lo hi, (hi <= 68)%nat ->
            sub (splice b 68 72 r) lo hi = sub b lo hi).
  { intros lo hi H. apply sub_ext. intros j Hj.
    apply splice_lookup_low; lia. }
  assert (Hhigh : forall lo hi, (72 <= lo)%nat ->
            sub (splice b 68 72 r) lo hi = sub b lo hi).
  { intros lo hi H. apply sub_ext. intros j Hj.
    apply splice_lookup_high; lia. }
  rewrite (Hlow 52 58)%nat, (Hlow 0 20)%nat, (Hlow 20 52)%nat,
    (Hlow 63 68)%nat, (Hlow 58 63)%nat by lia.
  rewrite (Hhigh 72 78)%nat by lia. reflexivity.
Qed.

Lemma L1UserTxFromBytes_reserved_bytes_witness :
  L1UserTxFromBytes (splice l1UserTxBytes 68 72 [xde; xad; xbe; xef])
  = L1UserTxFromBytes l1UserTxBytes.
Proof.
  apply (L1UserTxFromBytes_reserved_bytes l1UserTxBytes); reflexivity.
Defined.

Lemma L1UserTxFromBytes_Ok_inv (b : list byte) (tx : L1Tx) :
  L1UserTxFromBytes b = Ok tx -> length b = 78%nat /\ tx = decodedL1UserTx b.
Proof.
  intros H. destruct (Nat.eq_dec (length b) 78%nat) as [Hl|Hl].
  - rewrite L1UserTxFromBytes_decoded in H by exact Hl.
    injection H as <-. split; [exact Hl|reflexivity].
  - rewrite L1UserTxFromBytes_length_error in H by exact Hl. discriminate.
Qed.

(** X13. The two indexes of a tx that [L1UserTxFromBytes] returns encode
    back to the bytes they were read from: [Idx.Bytes] of [FromIdx] succeeds
    and returns the bytes [52:58] of the buffer, and [Idx.Bytes] of [ToIdx]
    the bytes [72:78]. *)
Theorem L1UserTxFromBytes_indexes_encode_back (b : list byte) (tx : L1Tx) :
  L1UserTxFromBytes b = Ok tx ->
  Idx_Bytes (FromIdx tx) = Ok (sub b 52 58) /\
  Idx_Bytes (ToIdx tx) = Ok (sub b 72 78).
Proof.
  intros H. apply L1UserTxFromBytes_Ok_inv in H. destruct H as [Hl ->].
  cbn [FromIdx ToIdx decodedL1UserTx].
  split; apply Idx_Bytes_be_value.
  - apply (proj2 (slice_in_range b 52 58 ltac:(lia) ltac:(lia))).
  - apply (proj2 (slice_in_range b 72 78 ltac:(lia) ltac:(lia))).
Qed.

Lemma L1UserTxFromBytes_indexes_encode_back_witness :
  Idx_Bytes (FromIdx (decodedL1UserTx l1UserTxBytes))
  = Ok (sub l1UserTxBytes 52 58) /\
  Idx_Bytes (ToIdx (decodedL1UserTx l1UserTxBytes))
  = Ok (sub l1UserTxBytes 72 78).
Proof.
  apply (L1UserTxFromBytes_indexes_encode_back l1UserTxBytes).
  apply L1UserTxFromBytes_decoded. reflexivity.
Defined.

Lemma SetType_no_panic (tx : L1Tx) :
  DepositAmount tx <> None -> SetType tx <> Panic.
Proof.
  intros Hd. unfold SetType.
  repeat match goal with
    | |- context [if ?c then _ else _] => destruct c
    end; try discriminate.
  destruct (DepositAmount tx) as [d|]; [|contradiction].
  destruct (Int64 d =? 0); discriminate.
Qed.

(** X14. A tx that [L1UserTxFromBytes] returns has no [ToForgeL1TxsNum] yet:
    [SetID] fails on it, and [NewL1Tx] returns an error and a nil tx, until
    the caller sets the queue number. *)
Theorem L1UserTxFromBytes_needs_ToForgeL1TxsNum (b : list byte) (tx : L1Tx) :
  L1UserTxFromBytes b = Ok tx ->
  ToForgeL1TxsNum tx = None /\
  SetID tx = Err ErrToForgeL1TxsNumNil /\
  exists tx' e, NewL1Tx tx = Returns tx' false (Some e).
Proof.
  intros H. apply L1UserTxFromBytes_Ok_inv in H. destruct H as [Hl ->].
  split; [reflexivity|]. split; [apply SetID_user_nil; reflexivity|].
  unfold NewL1Tx.
  destruct (SetType (decodedL1UserTx b)) as [a|e|] eqn:Ha.
  - destruct (SetType_Ok_inv _ a Ha) as [Ea _].
    change (Type_ (decodedL1UserTx b)) with EmptyString.
    cbn [String.eqb negb andb].
    rewrite (SetID_user_nil a); [eexists _, _; reflexivity| |];
      rewrite Ea; reflexivity.
  - eexists _, _. reflexivity.
  - exfalso. revert Ha. apply SetType_no_panic. discriminate.
Qed.

Lemma L1UserTxFromBytes_needs_ToForgeL1TxsNum_witness :
  SetID (decodedL1UserTx l1UserTxBytes) = Err ErrToForgeL1TxsNumNil.
Proof.
  apply (L1UserTxFromBytes_needs_ToForgeL1TxsNum l1UserTxBytes).
  apply L1UserTxFromBytes_decoded. reflexivity.
Defined.

(** ** [L1TxFromDataAvailability] *)

Lemma LeftPadBytes_short (s : list byte) :
  (length s <= 6)%nat -> LeftPadBytes s 6 = zeros (6 - length s) ++ s.
Proof.
  intros H.
  destruct s as [|c0 [|c1 [|c2 [|c3 [|c4 [|c5 [|c6 s]]]]]]]; reflexivity.
Qed.

Lemma LeftPadBytes_long (s : list byte) :
  (6 <= length s)%nat -> LeftPadBytes s 6 = s.
Proof.
  intros H. unfold LeftPadBytes.
  destruct (Nat.leb_spec 6 (length s)); [reflexivity|lia].
Qed.

Lemma IdxFromBytes_LeftPadBytes (s : list byte) :
  (length s <= 6)%nat -> IdxFromBytes (LeftPadBytes s 6) = Ok (be_value s).
Proof.
  intros H. rewrite LeftPadBytes_short by exact H.
  rewrite IdxFromBytes_be.
  - rewrite be_value_zeros_app. reflexivity.
  - rewrite length_app. unfold zeros. rewrite repeat_length. lia.
Qed.

(** X15. With [nLevels / 8] at most 6 and a buffer of at least
    [2 * (nLevels / 8) + 5] bytes, [L1TxFromDataAvailability] returns the tx
    whose [FromIdx] and [ToIdx] are the big-endian values of the first and
    second run of [nLevels / 8] bytes and whose [EffectiveAmount] is the
    Float40 of the next five bytes; every other field has its zero value,
    and bytes beyond these are not read. *)
Theorem L1TxFromDataAvailability_decoded (b : list byte) (nLevels : nat) :
  (nLevels / 8 <= 6)%nat ->
  (nLevels / 8 * 2 + 5 <= length b)%nat ->
  L1TxFromDataAvailability b nLevels =
  Ok (set_EffectiveAmount
        (Some (float40_value (sub b (nLevels / 8 * 2) (nLevels / 8 * 2 + 5))))
        (set_ToIdx (be_value (sub b (nLevels / 8) (nLevels / 8 * 2)))
           (set_FromIdx (be_value (sub b 0 (nLevels / 8))) zeroL1Tx))).
Proof.
  intros Hi Hl. unfold L1TxFromDataAvailability, Float40BytesLength.
  set (i := (nLevels / 8)%nat) in *.
  destruct (slice_in_range b 0 i) as [E1 L1]; [lia|lia|].
  destruct (slice_in_range b i (i * 2)) as [E2 L2]; [lia|lia|].
  destruct (slice_in_range b (i * 2) (i * 2 + 5)) as [E3 L3]; [lia|lia|].
  rewrite E1, E2, E3. cbn [obind].
  rewrite !IdxFromBytes_LeftPadBytes by lia. cbn [obind].
  rewrite Float40_BigInt_value. reflexivity.
Qed.

Lemma L1TxFromDataAvailability_decoded_witness :
  L1TxFromDataAvailability
    [x00; x00; x01; x00; x00; x00; x01; x01; x00; x00; x00; x00; x05; xff] 32
  = Ok (set_EffectiveAmount (Some 5)
          (set_ToIdx 257 (set_FromIdx 256 zeroL1Tx))).
Proof.
  apply (L1TxFromDataAvailability_decoded
           [x00; x00; x01; x00; x00; x00; x01; x01;
            x00; x00; x00; x00; x05; xff] 32);
    cbn; lia.
Defined.

(** X16. With [nLevels / 8] above 6, that is from [nLevels = 56] on,
    [L1TxFromDataAvailability] cannot decode: on a buffer long enough for its
    three slices it returns the length error of [IdxFromBytes] for the
    [nLevels / 8] bytes of [FromIdx]. *)
Theorem L1TxFromDataAvailability_wide_index (b : list byte) (nLevels : nat) :
  (6 < nLevels / 8)%nat ->
  (nLevels / 8 * 2 + 5 <= length b)%nat ->
  L1TxFromDataAvailability b nLevels = Err (ErrIdxBytesLen (nLevels / 8) 6).
Proof.
  intros Hi Hl. unfold L1TxFromDataAvailability, Float40BytesLength.
  set (i := (nLevels / 8)%nat) in *.
  destruct (slice_in_range b 0 i) as [E1 L1]; [lia|lia|].
  destruct (slice_in_range b i (i * 2)) as [E2 L2]; [lia|lia|].
  destruct (slice_in_range b (i * 2) (i * 2 + 5)) as [E3 L3]; [lia|lia|].
  rewrite E1, E2, E3. cbn [obind].
  rewrite LeftPadBytes_long by lia.
  rewrite IdxFromBytes_length by lia. cbn [obind].
  rewrite L1. f_equal. f_equal. lia.
Qed.

Lemma L1TxFromDataAvailability_wide_index_witness :
  L1TxFromDataAvailability (repeat x00 19) 56 = Err (ErrIdxBytesLen 7 6).
Proof.
  apply (L1TxFromDataAvailability_wide_index (repeat x00 19) 56); cbn; lia.
Defined.

(** On a list taken as a slice without spare capacity, a length below
    [2 * (nLevels / 8) + 5] puts one of the three slice expressions out of
    range. *)
Lemma L1TxFromDataAvailability_out_of_range (b : list byte) (nLevels : nat) :
  (length b < nLevels / 8 * 2 + 5)%nat ->
  L1TxFromDataAvailability b nLevels = Panic.
Proof.
  intros Hl. unfold L1TxFromDataAvailability, Float40BytesLength.
  set (i := (nLevels / 8)%nat) in *.
  destruct (le_lt_dec i (length b)) as [H1|H1].
  - destruct (slice_in_range b 0 i) as [E1 _]; [lia|lia|].
    rewrite E1. cbn [obind].
    destruct (le_lt_dec (i * 2) (length b)) as [H2|H2].
    + destruct (slice_in_range b i (i * 2)) as [E2 _]; [lia|lia|].
      rewrite E2. cbn [obind].
      rewrite slice_out_of_range by lia. reflexivity.
    + rewrite slice_out_of_range by lia. reflexivity.
  - rewrite slice_out_of_range by lia. reflexivity.
Qed.

Lemma IdxFromBytes_no_panic (s : list byte) : IdxFromBytes s <> Panic.
Proof.
  destruct (Nat.eq_dec (length s) 6%nat) as [E|E].
  - rewrite IdxFromBytes_be by exact E. discriminate.
  - rewrite IdxFromBytes_length by exact E. discriminate.
Qed.

Lemma L1TxFromDataAvailability_in_range (b : list byte) (nLevels : nat) :
  (nLevels / 8 * 2 + 5 <= length b)%nat ->
  L1TxFromDataAvailability b nLevels <> Panic.
Proof.
  intros Hl. unfold L1TxFromDataAvailability, Float40BytesLength.
  set (i := (nLevels / 8)%nat) in *.
  destruct (slice_in_range b 0 i) as [E1 _]; [lia|lia|].
  destruct (slice_in_range b i (i * 2)) as [E2 _]; [lia|lia|].
  destruct (slice_in_range b (i * 2) (i * 2 + 5)) as [E3 _]; [lia|lia|].
  rewrite E1, E2, E3. cbn [obind].
  destruct (IdxFromBytes (LeftPadBytes (sub b 0 i) 6)) as [x|e|] eqn:Ex;
    [|discriminate|exfalso; exact (IdxFromBytes_no_panic _ Ex)].
  cbn [obind].
  destruct (IdxFromBytes (LeftPadBytes (sub b i (i * 2)) 6)) as [y|e|] eqn:Ey;
    [|discriminate|exfalso; exact (IdxFromBytes_no_panic _ Ey)].
  cbn [obind]. rewrite Float40_BigInt_value. discriminate.
Qed.

(** A slice expression on a slice with its capacity is the slice expression
    of the model without spare capacity on the elements up to the
    capacity. *)
Lemma slice_cap_backing (s : Slice) (lo hi : nat) :
  slice_cap s lo hi
  = (x <-- slice (sl_backing s) lo hi; Ok (mkSlice (skipn lo (sl_backing s)) (hi - lo)))
  /\ elems (mkSlice (skipn lo (sl_backing s)) (hi - lo)) = sub (sl_backing s) lo hi.
Proof.
  split; [|reflexivity].
  unfold slice_cap, slice, cap.
  destruct ((lo <=? hi)%nat && (hi <=? length (sl_backing s))%nat); reflexivity.
Qed.

Lemma L1TxFromDataAvailability_cap_backing (b : Slice) (nLevels : nat) :
  L1TxFromDataAvailability_cap b nLevels
  = L1TxFromDataAvailability (sl_backing b) nLevels.
Proof.
  unfold L1TxFromDataAvailability_cap, L1TxFromDataAvailability.
  rewrite !(proj1 (slice_cap_backing b _ _)).
  destruct (slice (sl_backing b) 0 (nLevels / 8)) as [s1| |] eqn:E1;
    try reflexivity.
  cbn [obind].
  destruct (slice (sl_backing b) (nLevels / 8) (nLevels / 8 * 2))
    as [s2| |] eqn:E2; try reflexivity.
  cbn [obind].
  destruct (slice (sl_backing b) (nLevels / 8 * 2)
              (nLevels / 8 * 2 + Float40BytesLength)) as [s3| |] eqn:E3;
    try reflexivity.
  cbn [obind].
  rewrite !(proj2 (slice_cap_backing b _ _)).
  unfold slice in E1, E2, E3.
  destruct ((0 <=? nLevels / 8)%nat
            && (nLevels / 8 <=? length (sl_backing b))%nat);
    [injection E1 as <-|discriminate].
  destruct ((nLevels / 8 <=? nLevels / 8 * 2)%nat
            && (nLevels / 8 * 2 <=? length (sl_backing b))%nat);
    [injection E2 as <-|discriminate].
  destruct ((nLevels / 8 * 2 <=? nLevels / 8 * 2 + Float40BytesLength)%nat
            && (nLevels / 8 * 2 + Float40BytesLength
                <=? length (sl_backing b))%nat);
    [injection E3 as <-|discriminate].
  reflexivity.
Qed.

(** X17. [L1TxFromDataAvailability] checks no length, and its slice
    expressions are bounded by the capacity of the buffer, not by its length:
    the call panics exactly when the capacity is below
    [2 * (nLevels / 8) + 5]; with that capacity or more it returns a tx or an
    error, also on a buffer of smaller length. *)
Theorem L1TxFromDataAvailability_short_buffer (b : Slice) (nLevels : nat) :
  ((cap b < nLevels / 8 * 2 + 5)%nat ->
   L1TxFromDataAvailability_cap b nLevels = Panic) /\
  ((nLevels / 8 * 2 + 5 <= cap b)%nat ->
   L1TxFromDataAvailability_cap b nLevels <> Panic).
Proof.
  rewrite L1TxFromDataAvailability_cap_backing. unfold cap. split.
  - apply L1TxFromDataAvailability_out_of_range.
  - apply L1TxFromDataAvailability_in_range.
Qed.

Lemma L1TxFromDataAvailability_short_buffer_witness :
  L1TxFromDataAvailability_cap (mkSlice [] 0) 32 = Panic /\
  L1TxFromDataAvailability_cap (mkSlice (repeat x00 12) 12) 32 = Panic /\
  L1TxFromDataAvailability_cap (mkSlice (repeat x00 64) 12) 32 <> Panic.
Proof.
  split; [|split].
  - apply (L1TxFromDataAvailability_short_buffer (mkSlice [] 0) 32);
      cbn; lia.
  - apply (L1TxFromDataAvailability_short_buffer
             (mkSlice (repeat x00 12) 12) 32); cbn; lia.
  - apply (L1TxFromDataAvailability_short_buffer
             (mkSlice (repeat x00 64) 12) 32); cbn; lia.
Defined.

(** On 12 bytes of length and 64 of capacity, with [nLevels = 32], the call
    returns the tx read from the first 13 bytes of the array. *)
Example L1TxFromDataAvailability_spare_capacity :
  L1TxFromDataAvailability_cap (mkSlice (repeat x00 64) 12) 32
  = Ok (set_EffectiveAmount (Some 0) (set_ToIdx 0 (set_FromIdx 0 zeroL1Tx))).
Proof. reflexivity. Qed.

Lemma L1TxFromDataAvailability_Ok_inv (b : list byte) (nLevels : nat)
    (tx : L1Tx) :
  L1TxFromDataAvailability b nLevels = Ok tx ->
  exists fromIdx toIdx amount,
    tx = set_EffectiveAmount amount
           (set_ToIdx toIdx (set_FromIdx fromIdx zeroL1Tx)).
Proof.
  unfold L1TxFromDataAvailability. intros H.
  apply obind_Ok_inv in H. destruct H as (s1 & _ & H).
  apply obind_Ok_inv in H. destruct H as (s2 & _ & H).
  apply obind_Ok_inv in H. destruct H as (s3 & _ & H).
  apply obind_Ok_inv in H. destruct H as (fromIdx & _ & H).
  apply obind_Ok_inv in H. destruct H as (toIdx & _ & H).
  apply obind_Ok_inv in H. destruct H as (amount & _ & H).
  injection H as <-. eexists _, _, _. reflexivity.
Qed.

(** X18. A tx that [L1TxFromDataAvailability] returns has a nil
    [DepositAmount] (and a nil [Amount]); when both its indexes are user
    indexes (256 or more), [SetType] on it dereferences that nil pointer
    and panics, and so does [NewL1Tx]. *)
Theorem L1TxFromDataAvailability_then_SetType (b : list byte) (nLevels : nat)
    (tx : L1Tx) :
  L1TxFromDataAvailability b nLevels = Ok tx ->
  DepositAmount tx = None /\ Amount tx = None /\
  (FromIdx tx >= 256 -> ToIdx tx >= 256 ->
   SetType tx = Panic /\ NewL1Tx tx = Panics).
Proof.
  intros H. apply L1TxFromDataAvailability_Ok_inv in H.
  destruct H as (fromIdx & toIdx & amount & ->).
  split; [reflexivity|]. split; [reflexivity|].
  intros Hf Ht.
  assert (Hp : SetType (set_EffectiveAmount amount
                 (set_ToIdx toIdx (set_FromIdx fromIdx zeroL1Tx))) = Panic)
    by (apply SetType_nil_DepositAmount; [exact Hf|exact Ht|reflexivity]).
  split; [exact Hp|]. unfold NewL1Tx. rewrite Hp. reflexivity.
Qed.

Lemma L1TxFromDataAvailability_then_SetType_witness :
  SetType (set_EffectiveAmount (Some 5)
             (set_ToIdx 257 (set_FromIdx 256 zeroL1Tx))) = Panic /\
  NewL1Tx (set_EffectiveAmount (Some 5)
             (set_ToIdx 257 (set_FromIdx 256 zeroL1Tx))) = Panics.
Proof.
  apply (L1TxFromDataAvailability_then_SetType
           [x00; x00; x01; x00; x00; x00; x01; x01;
            x00; x00; x00; x00; x05; xff] 32);
    [reflexivity | cbn; lia | cbn; lia].
Defined.

(** ** More on [L1CoordinatorTxFromBytes] *)

Section L1CoordinatorFurther.

Variable PublicKey : Type.
Variable RollupConstEthAddressInternalOnly : list byte.
Variable HashToSign : list byte -> Z -> list byte -> outcome (list byte).
Variable Ecrecover : list byte -> list byte -> outcome (list byte).
Variable UnmarshalPubkey : list byte -> outcome PublicKey.
Variable PubkeyToAddress : PublicKey -> list byte.

(** The tx before its address is set. *)
Lemma L1CoordinatorTxFromBytes_Ok_inv
    (b : list byte) (chainID : option Z) (tokamakAddress : list byte)
    (tx : L1Tx) :
  L1CoordinatorTxFromBytes PublicKey RollupConstEthAddressInternalOnly
    HashToSign Ecrecover UnmarshalPubkey PubkeyToAddress
    b chainID tokamakAddress = Ok tx ->
  tx = set_FromEthAddr (FromEthAddr tx)
         (set_DepositAmount (Some 0) (set_Amount (Some 0)
            (set_FromBJJ (FromBJJ tx) (set_UserOrigin false zeroL1Tx)))).
Proof.
  unfold L1CoordinatorTxFromBytes.
  destruct (negb (length b =? RollupConstL1CoordinatorTotalBytes)%nat);
    [discriminate|].
  intros H.
  apply obind_Ok_inv in H. destruct H as (v & _ & H).
  apply obind_Ok_inv in H. destruct H as (s & _ & H).
  apply obind_Ok_inv in H. destruct H as (r & _ & H).
  apply obind_Ok_inv in H. destruct H as (pk & _ & H).
  destruct (Z_of_byte v >? 0).
  - apply obind_Ok_inv in H. destruct H as (b0 & _ & H).
    apply obind_Ok_inv in H. destruct H as (c & _ & H).
    apply obind_Ok_inv in H. destruct H as (h & _ & H).
    apply obind_Ok_inv in H. destruct H as (pkb & _ & H).
    apply obind_Ok_inv in H. destruct H as (pubKey & _ & H).
    injection H as <-. reflexivity.
  - injection H as <-. reflexivity.
Qed.

(** X19. [L1CoordinatorTxFromBytes] returns its length error on every
    buffer that does not have 101 bytes.  On 101 bytes with a zero first
    byte it always returns a tx, with the key of bytes [65:97] reversed and
    the internal-only address: it consults neither the bytes of [s] and
    [r], nor [chainID] (which may be nil), nor the signature primitives. *)
Theorem L1CoordinatorTxFromBytes_unsigned
    (b : list byte) (chainID : option Z) (tokamakAddress : list byte) :
  (length b <> 101%nat ->
   L1CoordinatorTxFromBytes PublicKey RollupConstEthAddressInternalOnly
     HashToSign Ecrecover UnmarshalPubkey PubkeyToAddress
     b chainID tokamakAddress
   = Err (ErrL1CoordinatorTxBytesLen 101 (length b))) /\
  (length b = 101%nat -> b !! 0%nat = Some x00 ->
   L1CoordinatorTxFromBytes PublicKey RollupConstEthAddressInternalOnly
     HashToSign Ecrecover UnmarshalPubkey PubkeyToAddress
     b chainID tokamakAddress
   = Ok (set_FromEthAddr RollupConstEthAddressInternalOnly
           (set_DepositAmount (Some 0) (set_Amount (Some 0)
              (set_FromBJJ (SwapEndianness (sub b 65 97))
                 (set_UserOrigin false zeroL1Tx)))))).
Proof.
  unfold L1CoordinatorTxFromBytes, RollupConstL1CoordinatorTotalBytes, Wrap.
  split.
  - intros Hl.
    destruct (Nat.eqb_spec (length b) 101) as [E|_]; [contradiction|].
    reflexivity.
  - intros Hl Hv. rewrite Hl. cbn [Nat.eqb negb]. unfold index. rewrite Hv.
    cbn [obind].
    destruct (slice_in_range b 1 33) as [E1 _]; [lia|lia|].
    destruct (slice_in_range b 33 65) as [E2 _]; [lia|lia|].
    destruct (slice_in_range b 65 97) as [E3 L3]; [lia|lia|].
    rewrite E1, E2, E3. cbn [obind].
    change (Z_of_byte x00 >? 0) with false. cbv iota.
    rewrite copy_same_length; [reflexivity|].
    unfold SwapEndianness. rewrite length_rev, L3. reflexivity.
Qed.

(** X20. [L1CoordinatorTxFromBytes] does not read the last four bytes
    [97:101]: two 101-byte buffers that differ in these bytes only give the
    same result. *)
Theorem L1CoordinatorTxFromBytes_trailing_bytes
    (b r : list byte) (chainID : option Z) (tokamakAddress : list byte) :
  length b = 101%nat -> length r = 4%nat ->
  L1CoordinatorTxFromBytes PublicKey RollupConstEthAddressInternalOnly
    HashToSign Ecrecover UnmarshalPubkey PubkeyToAddress
    (splice b 97 101 r) chainID tokamakAddress
  = L1CoordinatorTxFromBytes PublicKey RollupConstEthAddressInternalOnly
      HashToSign Ecrecover UnmarshalPubkey PubkeyToAddress
      b chainID tokamakAddress.
Proof.
  intros Hb Hr.
  assert (Hs : length (splice b 97 101 r) = 101%nat)
    by (rewrite splice_length; lia).
  assert (Hlow : forall lo hi, (hi <= 97)%nat ->
            sub (splice b 97 101 r) lo hi = sub b lo hi).
  { intros lo hi H. apply sub_ext. intros j Hj.
    apply splice_lookup_low; lia. }
  unfold L1CoordinatorTxFromBytes, index.
  rewrite Hs, Hb.
  rewrite (splice_lookup_low b r 97 101 0) by lia.
  destruct (slice_in_range b 1 33) as [E1 _]; [lia|lia|].
  destruct (slice_in_range b 33 65) as [E2 _]; [lia|lia|].
  destruct (slice_in_range b 65 97) as [E3 _]; [lia|lia|].
  destruct (slice_in_range (splice b 97 101 r) 1 33) as [F1 _]; [lia|lia|].
  destruct (slice_in_range (splice b 97 101 r) 33 65) as [F2 _]; [lia|lia|].
  destruct (slice_in_range (splice b 97 101 r) 65 97) as [F3 _]; [lia|lia|].
  rewrite E1, E2, E3, F1, F2, F3.
  rewrite (Hlow 1 33)%nat, (Hlow 33 65)%nat, (Hlow 65 97)%nat by lia.
  reflexivity.
Qed.

(** X21. A tx that [L1CoordinatorTxFromBytes] returns is typed
    [CreateAccountDeposit] by [SetType], both its indexes being zero, and has
    no [BatchNum] yet: [SetID] fails on it until the caller sets one. *)
Theorem L1CoordinatorTxFromBytes_then_SetType_SetID
    (b : list byte) (chainID : option Z) (tokamakAddress : list byte)
    (tx : L1Tx) :
  L1CoordinatorTxFromBytes PublicKey RollupConstEthAddressInternalOnly
    HashToSign Ecrecover UnmarshalPubkey PubkeyToAddress
    b chainID tokamakAddress = Ok tx ->
  SetType tx = Ok (set_Type TxTypeCreateAccountDeposit tx) /\
  SetID tx = Err ErrBatchNumNil.
Proof.
  intros H. apply L1CoordinatorTxFromBytes_Ok_inv in H.
  split.
  - rewrite H at 1. unfold SetType. cbn [FromIdx ToIdx set_FromEthAddr
      set_DepositAmount set_Amount set_FromBJJ set_UserOrigin zeroL1Tx].
    cbn [Z.eqb]. rewrite <- H. reflexivity.
  - apply SetID_coordinator_nil; rewrite H; reflexivity.
Qed.

End L1CoordinatorFurther.

Lemma L1CoordinatorTxFromBytes_unsigned_witness :
  L1CoordinatorTxFromBytes (list byte) (repeat xff 20)
    (fun _ _ _ => Err ErrHashToSign) (fun _ _ => Err ErrEcrecover)
    (fun _ => Err ErrUnmarshalPubkey) (fun pk => pk)
    l1CoordinatorTxBytes None (zeros 20)
  = Ok (set_FromEthAddr (repeat xff 20)
          (set_DepositAmount (Some 0) (set_Amount (Some 0)
             (set_FromBJJ (SwapEndianness (sub l1CoordinatorTxBytes 65 97))
                (set_UserOrigin false zeroL1Tx))))).
Proof.
  apply (proj2 (L1CoordinatorTxFromBytes_unsigned (list byte) (repeat xff 20)
                  (fun _ _ _ => Err ErrHashToSign) (fun _ _ => Err ErrEcrecover)
                  (fun _ => Err ErrUnmarshalPubkey) (fun pk => pk)
                  l1CoordinatorTxBytes None (zeros 20)));
    reflexivity.
Defined.

Lemma L1CoordinatorTxFromBytes_trailing_bytes_witness :
  L1CoordinatorTxFromBytes (list byte) (repeat xff 20)
    (fun _ _ _ => Err ErrHashToSign) (fun _ _ => Err ErrEcrecover)
    (fun _ => Err ErrUnmarshalPubkey) (fun pk => pk)
    (splice l1CoordinatorTxBytes 97 101 [x00; x00; x00; x07])
    (Some 1) (zeros 20)
  = L1CoordinatorTxFromBytes (list byte) (repeat xff 20)
      (fun _ _ _ => Err ErrHashToSign) (fun _ _ => Err ErrEcrecover)
      (fun _ => Err ErrUnmarshalPubkey) (fun pk => pk)
      l1CoordinatorTxBytes (Some 1) (zeros 20).
Proof.
  apply (L1CoordinatorTxFromBytes_trailing_bytes (list byte) (repeat xff 20)
           (fun _ _ _ => Err ErrHashToSign) (fun _ _ => Err ErrEcrecover)
           (fun _ => Err ErrUnmarshalPubkey) (fun pk => pk)
           l1CoordinatorTxBytes [x00; x00; x00; x07]);
    reflexivity.
Defined.

Lemma L1CoordinatorTxFromBytes_then_SetType_SetID_witness :
  SetID (set_FromEthAddr (repeat xff 20)
           (set_DepositAmount (Some 0) (set_Amount (Some 0)
              (set_FromBJJ (SwapEndianness (sub l1CoordinatorTxBytes 65 97))
                 (set_UserOrigin false zeroL1Tx)))))
  = Err ErrBatchNumNil.
Proof.
  apply (L1CoordinatorTxFromBytes_then_SetType_SetID (list byte)
           (repeat xff 20)
           (fun _ _ _ => Err ErrHashToSign) (fun _ _ => Err ErrEcrecover)
           (fun _ => Err ErrUnmarshalPubkey) (fun pk => pk)
           l1CoordinatorTxBytes None (zeros 20)).
  vm_compute. reflexivity.
Defined.

(** ** The updates of [setExtraInfoForgedL1UserTxs] *)

Lemma equal_amountsEqual (a b : option Z) :
  (a = None <-> b = None) -> historydb.equal a b = Ok (amountsEqual a b).
Proof.
  intros [H1 H2]. destruct a as [x|], b as [y|]; try reflexivity.
  - discriminate (H2 eq_refl).
  - discriminate (H1 eq_refl).
Qed.

Lemma txUpdates_filter (txs : list L1Tx) (acc : list historydb.txUpdate) :
  Forall amountsComparable txs ->
  historydb.txUpdates txs acc
  = Ok (acc ++ map updateOf (List.filter needsUpdate txs)).
Proof.
  intros H. revert acc. induction H as [|tx txs [Ha Hd] _ IH]; intros acc.
  - cbn. rewrite app_nil_r. reflexivity.
  - cbn [historydb.txUpdates List.filter].
    rewrite (equal_amountsEqual _ _ Ha), (equal_amountsEqual _ _ Hd).
    cbn [obind]. fold (needsUpdate tx).
    destruct (needsUpdate tx).
    + rewrite IH. cbn [map]. rewrite <- app_assoc. reflexivity.
    + apply IH.
Qed.

(** X22. For forged txs whose amounts can be compared (no pair with exactly
    one nil pointer), the loop of [setExtraInfoForgedL1UserTxs] builds, in
    the order of the txs, one update for every tx that has an amount other
    than its effective amount, or a deposit other than its effective
    deposit, or [FromIdx = 0], and none for the other txs; so when every tx
    is fully effective and none creates its account, the list is empty and
    no UPDATE is sent. *)
Theorem setExtraInfoForgedL1UserTxs_updates (txs : list L1Tx) :
  Forall amountsComparable txs ->
  historydb.txUpdates txs []
  = Ok (map updateOf (List.filter needsUpdate txs)) /\
  (Forall (fun tx => needsUpdate tx = false) txs ->
   historydb.txUpdates txs [] = Ok []) /\
  (forall tx, In tx txs -> FromIdx tx = 0 ->
   In (updateOf tx) (map updateOf (List.filter needsUpdate txs))).
Proof.
  intros H. split; [|split].
  - apply (txUpdates_filter txs [] H).
  - intros Hn. rewrite (txUpdates_filter txs [] H). cbn [app]. f_equal.
    induction Hn as [|tx txs' Ht _ IH]; [reflexivity|].
    cbn [List.filter]. rewrite Ht. apply IH. inversion H; assumption.
  - intros tx Hin Hz. apply in_map. apply filter_In. split; [exact Hin|].
    unfold needsUpdate. rewrite Hz. cbn [Z.eqb]. apply orb_true_r.
Qed.

Lemma setExtraInfoForgedL1UserTxs_updates_witness :
  historydb.txUpdates
    [forgedL1UserTx 0 256 1 1 2 2; forgedL1UserTx 1 0 5 5 7 7;
     forgedL1UserTx 2 300 5 0 7 7] []
  = Ok (map updateOf
          (List.filter needsUpdate
             [forgedL1UserTx 0 256 1 1 2 2; forgedL1UserTx 1 0 5 5 7 7;
              forgedL1UserTx 2 300 5 0 7 7])).
Proof.
  apply (setExtraInfoForgedL1UserTxs_updates
           [forgedL1UserTx 0 256 1 1 2 2; forgedL1UserTx 1 0 5 5 7 7;
            forgedL1UserTx 2 300 5 0 7 7]).
  repeat constructor; cbn; discriminate.
Defined.

(** The three forged txs above: the first needs no update, the second
    creates its account, the amount of the third was not effective. *)
Example setExtraInfoForgedL1UserTxs_three :
  historydb.txUpdates
    [forgedL1UserTx 0 256 1 1 2 2; forgedL1UserTx 1 0 5 5 7 7;
     forgedL1UserTx 2 300 5 0 7 7] []
  = Ok [historydb.mkTxUpdate (zeros TxIDLen) true true 0;
        historydb.mkTxUpdate (zeros TxIDLen) false true 300].
Proof. reflexivity. Qed.
